(** * data-transform: a shallow embedding of [src/data-transform.js]

    The transformer is JavaScript: it reads a source object, builds a fresh
    result object by mutation, hands references to user callbacks and
    writes diagnostics to the console.  The embedding therefore keeps an
    explicit store of objects (so that two references to one object are
    really shared), a console, and a three-way result (return, throw, out
    of recursion budget).

    The deep-property accessor ([extractDeepProperty], [setDeepProperty])
    is an npm dependency, not part of the repository.  The transformer is
    defined over an arbitrary accessor (section variables); a concrete
    accessor following the contract written in the specification is given
    afterwards and is used wherever a closed example has to run. *)

From stdpp Require Import base strings list gmap pretty.
From Stdlib Require Import ZArith Ascii.


(** ** JavaScript values and the object store *)

Abbreviation loc := nat (only parsing).
Abbreviation fn_id := nat (only parsing).

(** A value is a primitive, a reference to an object or array of the
    store, or a function. *)
Inductive value :=
| VUndefined
| VNull
| VBool (b : bool)
| VNum (n : Z)
| VStr (s : string)
| VRef (l : loc)
| VFun (f : fn_id).

(** A stored object: a plain object (its own enumerable properties) or an
    array (its elements, dense). *)
Inductive obj :=
| OObject (fields : gmap string value)
| OArray (elems : list value).

(** The store maps a location to its object; allocation appends. *)
Abbreviation heap := (list obj) (only parsing).

Definition typeof (v : value) : string :=
  match v with
  | VUndefined => "undefined"
  | VNull => "object"
  | VBool _ => "boolean"
  | VNum _ => "number"
  | VStr _ => "string"
  | VRef _ => "object"
  | VFun _ => "function"
  end.

Definition is_null (v : value) : bool :=
  match v with VNull => true | _ => false end.

Definition is_undefined (v : value) : bool :=
  match v with VUndefined => true | _ => false end.

(** JavaScript truthiness ([if (x)], [x ? a : b]). *)
Definition truthy (v : value) : bool :=
  match v with
  | VUndefined | VNull => false
  | VBool b => b
  | VNum n => negb (n =? 0)%Z
  | VStr s => negb (String.eqb s "")
  | VRef _ | VFun _ => true
  end.

(** [isObject]: [typeof value === 'object' && value !== null]. *)
Definition isObject (v : value) : bool :=
  String.eqb (typeof v) "object" && negb (is_null v).

(** [isFunction]: [typeof value === 'function']. *)
Definition isFunction (v : value) : bool :=
  String.eqb (typeof v) "function".

(** [Array.isArray]. *)
Definition isArray (h : heap) (v : value) : bool :=
  match v with
  | VRef l => match h !! l with Some (OArray _) => true | _ => false end
  | _ => false
  end.

(** ** Paths and instructions *)

(** A segment of an explicit segment array. *)
Inductive segment :=
| SegStr (s : string)
| SegNum (n : Z)
| SegNull.

(** A path handed to the accessor: a dot-delimited string or an array of
    segments. *)
Inductive path :=
| PDot (s : string)
| PSegs (l : list segment).

(** The [from] field when it is present: [null], a path, or a
    multi-source descriptor [{paths, combine}] (a sub-path of [paths] is
    [None] when it is [null]; [combine] is [VUndefined] when absent). *)
Inductive from_t :=
| FromNull
| FromPath (p : path)
| FromMulti (paths : list (option path)) (combine : value).

(** The [to] field when it is present. *)
Inductive to_t :=
| ToNull
| ToPath (p : path).

(** An instruction object.  [None] stands for a field that reads as
    [undefined] ([from], [to]) or is falsy ([instructions]); [transform]
    and [default] are values, [VUndefined] when absent. *)
Inductive instruction :=
| Instruction (from : option from_t) (to : option to_t)
    (instructions : option instrs) (transform : value) (default : value)
with instrs :=
| Single (i : instruction)
| Many (l : list instruction).

Definition i_from (i : instruction) : option from_t :=
  match i with Instruction f _ _ _ _ => f end.
Definition i_to (i : instruction) : option to_t :=
  match i with Instruction _ t _ _ _ => t end.
Definition i_instructions (i : instruction) : option instrs :=
  match i with Instruction _ _ n _ _ => n end.
Definition i_transform (i : instruction) : value :=
  match i with Instruction _ _ _ t _ => t end.
Definition i_default (i : instruction) : value :=
  match i with Instruction _ _ _ _ d => d end.

Record options := Options { warn : bool }.

(** ** Errors *)

(** [DataTransformError] carries its message and the instruction it was
    raised for ([None]: raised without one); [DeepPropertyError] is the
    accessor's error class; [OtherError] is any other thrown value. *)
Inductive error :=
| DataTransformError (message : string) (instruction : option instruction)
| DeepPropertyError (message : string)
| OtherError (message : string).

(** How a call into foreign code ends. *)
Inductive completion (A : Type) :=
| Normal (a : A)
| Abrupt (e : error).
Arguments Normal {A} a.
Arguments Abrupt {A} e.

(** ** The monad of the transformer: store, console, exceptions *)

Record state := State { st_heap : list obj; console : list string }.

Inductive result (A : Type) :=
| Ret (a : A) (st : state)
| Throw (e : error) (st : state)
| OutOfFuel.
Arguments Ret {A} a st.
Arguments Throw {A} e st.
Arguments OutOfFuel {A}.

Definition M (A : Type) : Type := state -> result A.

Definition ret {A} (a : A) : M A := fun st => Ret a st.

Definition bind {A B} (m : M A) (k : A -> M B) : M B :=
  fun st =>
    match m st with
    | Ret a st' => k a st'
    | Throw e st' => Throw e st'
    | OutOfFuel => OutOfFuel
    end.

Definition throw {A} (e : error) : M A := fun st => Throw e st.

(** [try { m } catch (error) { handler error }]. *)
Definition try_catch {A} (m : M A) (handler : error -> M A) : M A :=
  fun st =>
    match m st with
    | Throw e st' => handler e st'
    | r => r
    end.

Declare Scope js_scope.
Delimit Scope js_scope with js.
Notation "x <- m ;; k" := (bind m (fun x => k))
  (at level 100, m at next level, right associativity) : js_scope.
Notation "m ;;; k" := (bind m (fun _ => k))
  (at level 100, right associativity) : js_scope.
Open Scope js_scope.

(** [console.warn(line)]. *)
Definition console_warn (line : string) : M unit :=
  fun st => Ret tt (State (st_heap st) (console st ++ [line])).

Definition get_heap : M (list obj) := fun st => Ret (st_heap st) st.

(** A new object: it takes the next free location. *)
Definition alloc (o : obj) : M value :=
  fun st => Ret (VRef (length (st_heap st)))
                (State (st_heap st ++ [o]) (console st)).

(** Foreign code that may change the store. *)
Definition lift_heap {A} (f : list obj -> list obj * completion A) : M A :=
  fun st =>
    match f (st_heap st) with
    | (h, Normal a) => Ret a (State h (console st))
    | (h, Abrupt e) => Throw e (State h (console st))
    end.

(** Foreign code that only reads the store. *)
Definition lift_read {A} (f : list obj -> completion A) : M A :=
  lift_heap (fun h => (h, f h)).

(** [xs.map(f)] for an effectful [f]: elements in order, the first throw
    ends the loop. *)
Fixpoint array_map {A B} (f : A -> M B) (xs : list A) : M (list B) :=
  match xs with
  | [] => ret []
  | x :: xs' => y <- f x ;; ys <- array_map f xs' ;; ret (y :: ys)
  end.

(** [for (const x of xs) { body x }]. *)
Fixpoint for_of {A} (xs : list A) (body : A -> M unit) : M unit :=
  match xs with
  | [] => ret tt
  | x :: xs' => body x ;;; for_of xs' body
  end.

(** ** String helpers of the host language *)

Definition dquote : string := String (Ascii.ascii_of_nat 34) EmptyString.

(** The message of an accessor error rethrown for the field [field]:
    [`In "${field}": ${message}`]. *)
Definition wrapped (field message : string) : string :=
  "In " +:+ dquote +:+ field +:+ dquote +:+ ": " +:+ message.

(** [`Must supply "${field}" key path`]. *)
Definition missing (field : string) : string :=
  "Must supply " +:+ dquote +:+ field +:+ dquote +:+ " key path".

(** [s.split(sep)] for a one-character separator. *)
Fixpoint split (sep : Ascii.ascii) (s : string) : list string :=
  match s with
  | EmptyString => [EmptyString]
  | String c s' =>
      if Ascii.eqb c sep then EmptyString :: split sep s'
      else match split sep s' with
           | [] => [String c EmptyString]
           | w :: ws => String c w :: ws
           end
  end.

(** [xs.join(sep)] on strings. *)
Fixpoint join (sep : string) (xs : list string) : string :=
  match xs with
  | [] => ""
  | [x] => x
  | x :: xs' => x +:+ sep +:+ join sep xs'
  end.

(** What [Array.prototype.join] prints for a segment: [null] prints as the
    empty string. *)
Definition segment_to_string (s : segment) : string :=
  match s with
  | SegStr s => s
  | SegNum n => pretty n
  | SegNull => ""
  end.

(** [stringifyPath] on a path: an array is joined with [" => "], a string
    is first split at the dots. *)
Definition stringifyPath_path (p : path) : string :=
  match p with
  | PSegs l => join " => " (map segment_to_string l)
  | PDot s => join " => " (split "."%char s)
  end.

(** A value interpolated in a template literal; [stringifyPath] returns
    [undefined] (here [None]) for [null]. *)
Definition template (s : option string) : string :=
  match s with Some s => s | None => "undefined" end.

(** [stringifyPath] on the [from] field. *)
Definition stringifyPath (f : from_t) : option string :=
  match f with
  | FromNull => None
  | FromPath p => Some (stringifyPath_path p)
  | FromMulti paths _ =>
      Some (join "," (map (fun p => "[" +:+ template (stringifyPath_path <$> p) +:+ "]") paths))
  end.

(** Own enumerable properties of a stored object, as [Object.assign] reads
    them: the fields of a plain object, the index keys of an array. *)
Definition own_properties (o : obj) : gmap string value :=
  match o with
  | OObject fields => fields
  | OArray elems => list_to_map (imap (fun i v => (pretty i, v)) elems)
  end.

(** [Object.assign(target, source)] for a [source] that passed [isObject]:
    every own property of [source] is written to [target], replacing a
    property of the same name.  [target] is always the result object, a
    plain object; on any other store shape nothing is written. *)
Definition Object_assign (target source : value) : M unit :=
  fun st =>
    let h := st_heap st in
    match target, source with
    | VRef lt, VRef ls =>
        match h !! lt, h !! ls with
        | Some (OObject tf), Some o =>
            Ret tt (State (<[lt := OObject (own_properties o ∪ tf)]> h) (console st))
        | _, _ => Ret tt st
        end
    | _, _ => Ret tt st
    end.

(** ** The transformer *)

Section Transformer.

(** The external accessor and the user's functions. *)
Variable extractDeepProperty :
  list obj -> value -> path -> completion (bool * value).
Variable setDeepProperty :
  list obj -> value -> path -> value -> list obj * completion unit.
Variable callFunction :
  fn_id -> list value -> list obj -> list obj * completion value.

(** A call [f(...args)]: calling a value that is not a function throws a
    [TypeError]. *)
Definition call (f : value) (args : list value) : M value :=
  match f with
  | VFun id => lift_heap (callFunction id args)
  | _ => throw (OtherError "TypeError: not a function")
  end.

(** [extractProperty(sourceObject, path)]. *)
Definition extractProperty (sourceObject : value) (path : option path)
  : M (bool * value) :=
  match path with
  | None => ret (true, sourceObject)
  | Some p => lift_read (fun h => extractDeepProperty h sourceObject p)
  end.

(** [extractCombinedProperties(sourceObject, instruction)], with the two
    fields of the descriptor as arguments.  Without [combine] the value
    is a new array of the extracted values. *)
Definition extractCombinedProperties (sourceObject : value)
    (paths : list (option path)) (combine : value) : M (bool * value) :=
  extracts <- array_map (extractProperty sourceObject) paths ;;
  let allExist :=
    foldl (fun state (e : bool * value) => state && fst e) true extracts in
  if negb allExist then ret (false, VUndefined)
  else
    let allValues :=
      foldl (fun values (e : bool * value) => values ++ [snd e]) [] extracts in
    if truthy combine
    then (v <- call combine allValues ;; ret (true, v))
    else (a <- alloc (OArray allValues) ;; ret (true, a)).

(** [throwUnexpectedError(error)]. *)
Definition throwUnexpectedError {A} (e : error) : M A :=
  console_warn "This error should not happen." ;;; throw e.

(** The [catch] clause shared by the two [try] blocks; [field] is
    ["from"] or ["to"]. *)
Definition rethrow {A} (field : string) (i : instruction) (e : error) : M A :=
  match e with
  | DeepPropertyError message =>
      throw (DataTransformError (wrapped field message) (Some i))
  | _ => throwUnexpectedError e
  end.

(** Instruction validation (the three checks at the head of the loop
    body); a valid instruction yields its [from] and [to]. *)
Definition validate (i : instruction) : M (from_t * to_t) :=
  if negb (is_undefined (i_transform i)) && negb (isFunction (i_transform i))
  then throw (DataTransformError "Transform is not a function" (Some i))
  else
    match i_from i with
    | None =>
        throw (DataTransformError (missing "from") (Some i))
    | Some from =>
        match i_to i with
        | None =>
            throw (DataTransformError (missing "to") (Some i))
        | Some to => ret (from, to)
        end
    end.

(** [combinedSource]: [from !== null && from.paths !== undefined]. *)
Definition combinedSource (from : from_t) : bool :=
  match from with FromMulti _ _ => true | _ => false end.

(** The first [try] block: extraction from the source. *)
Definition extractSource (sourceObject : value) (i : instruction)
    (from : from_t) : M (bool * value) :=
  try_catch
    (match from with
     | FromMulti paths combine =>
         extractCombinedProperties sourceObject paths combine
     | FromNull => extractProperty sourceObject None
     | FromPath p => extractProperty sourceObject (Some p)
     end)
    (rethrow "from" i).

(** The [if (sourceValueExists) ... else ...] block; [recur] is the
    recursive call of [transformData]. *)
Definition computeResultValue (recur : value -> instrs -> M value)
    (opts : options) (sourceObject resultObject : value)
    (i : instruction) (from : from_t) (extract : bool * value) : M value :=
  let '(sourceValueExists, sourceValue) := extract in
  if sourceValueExists then
    resultValue <-
      match i_instructions i with
      | Some nested => recur sourceValue nested
      | None => ret sourceValue
      end ;;
    if truthy (i_transform i)
    then call (i_transform i) [resultValue; resultObject; sourceObject]
    else ret resultValue
  else
    (if warn opts
     then console_warn ("Value does not exist at: " +:+ template (stringifyPath from))
     else ret tt) ;;;
    if negb (is_undefined (i_default i)) then ret (i_default i)
    else ret VUndefined.

(** The last block: set the property or assign. *)
Definition writeResult (resultObject : value) (i : instruction)
    (to : to_t) (resultValue : value) : M unit :=
  match to with
  | ToNull =>
      if negb (isObject resultValue)
      then throw (DataTransformError
                    "Cannot assign properties from a non-object" (Some i))
      else Object_assign resultObject resultValue
  | ToPath p =>
      try_catch
        (lift_heap (fun h => setDeepProperty h resultObject p resultValue))
        (rethrow "to" i)
  end.

(** One turn of the [for (const instruction of instructions)] loop. *)
Definition processInstruction (recur : value -> instrs -> M value)
    (opts : options) (sourceObject resultObject : value)
    (i : instruction) : M unit :=
  ft <- validate i ;;
  extract <- extractSource sourceObject i (fst ft) ;;
  resultValue <-
    computeResultValue recur opts sourceObject resultObject i (fst ft) extract ;;
  writeResult resultObject i (snd ft) resultValue.

(** [if (!Array.isArray(instructions)) instructions = [instructions]]. *)
Definition normalize (instructions : instrs) : list instruction :=
  match instructions with
  | Many l => l
  | Single i => [i]
  end.

(** The body of [transformData] once the source is known not to be an
    array. *)
Definition transformObject (recur : value -> instrs -> M value)
    (sourceObject : value) (instructions : instrs) (opts : options)
  : M value :=
  h <- get_heap ;;
  if negb (isObject sourceObject) && negb (isArray h sourceObject)
  then throw (DataTransformError "Source must be an object or an array" None)
  else
    resultObject <- alloc (OObject ∅) ;;
    for_of (normalize instructions)
           (processInstruction recur opts sourceObject resultObject) ;;;
    ret resultObject.

(** The elements of the source when it is an array. *)
Definition array_elements (h : list obj) (v : value) : option (list value) :=
  match v with
  | VRef l => match h !! l with Some (OArray elems) => Some elems | _ => None end
  | _ => None
  end.

(** [transformData(sourceObject, instructions, options)].  [fuel] bounds
    the depth of the recursion (array fan-out and nested instructions);
    JavaScript's own bound is the call stack.  The array branch maps the
    elements the array holds when the call starts. *)
Fixpoint transformData (fuel : nat) (sourceObject : value)
    (instructions : instrs) (opts : options) : M value :=
  match fuel with
  | O => fun _ => OutOfFuel
  | S fuel' =>
      h <- get_heap ;;
      match array_elements h sourceObject with
      | Some elems =>
          results <-
            array_map (fun sourceElement =>
                         transformData fuel' sourceElement instructions opts)
                      elems ;;
          alloc (OArray results)
      | None =>
          transformObject
            (fun value nested => transformData fuel' value nested opts)
            sourceObject instructions opts
      end
  end.

(** [transformDataFactory(instructions)]; [options] defaults to [{}],
    that is [warn: false]. *)
Definition transformDataFactory (instructions : instrs)
  : nat -> value -> option options -> M value :=
  fun fuel sourceObject opts =>
    transformData fuel sourceObject instructions
                  (default (Options false) opts).

End Transformer.

(** ** The accessor, from its contract *)

Module Accessor.

(** The package [@szydlovski/deep-property] ([extractDeepProperty],
    [setDeepProperty], [DeepPropertyError]) is a dependency of the
    repository and is not in it.  The definitions of this module follow
    the contract the specification gives for it. *)

Definition is_SegNull (s : segment) : bool :=
  match s with SegNull => true | _ => false end.

(** Modelled from the spec: the accessor's reading of a path as a list of
    keys.  It fails with a [PathError] (a [DeepPropertyError]) on an
    illegal segment ([null] in a segment array) and on an empty segment. *)
Definition path_keys (p : path) : completion (list string) :=
  match p with
  | PDot s =>
      let keys := split "."%char s in
      if existsb (String.eqb "") keys
      then Abrupt (DeepPropertyError "Path contains an empty segment")
      else Normal keys
  | PSegs l =>
      if existsb is_SegNull l
      then Abrupt (DeepPropertyError "Path contains an illegal segment")
      else
        let keys := map segment_to_string l in
        if existsb (String.eqb "") keys || bool_decide (keys = [])
        then Abrupt (DeepPropertyError "Path contains an empty segment")
        else Normal keys
  end.

(** The number a string of decimal digits denotes. *)
Fixpoint parse_digits (s : string) (acc : nat) : option nat :=
  match s with
  | EmptyString => Some acc
  | String c s' =>
      let code := Ascii.nat_of_ascii c in
      if (48 <=? code) && (code <=? 57)
      then parse_digits s' (10 * acc + (code - 48))
      else None
  end.

(** Modelled from the spec: the index an array key denotes: the key must
    be the canonical decimal form of the index. *)
Definition array_index (key : string) : option nat :=
  match parse_digits key 0 with
  | Some n => if String.eqb (pretty n) key then Some n else None
  | None => None
  end.

(** Modelled from the spec: reading one key of a container; [None] when
    the key is missing or the container is not indexable. *)
Definition get_property (h : list obj) (container : value) (key : string)
  : option value :=
  match container with
  | VRef l =>
      match h !! l with
      | Some (OObject fields) => fields !! key
      | Some (OArray elems) => i ← array_index key; elems !! i
      | None => None
      end
  | _ => None
  end.

(** Modelled from the spec: the walk of [extract] along the keys. *)
Fixpoint walk (h : list obj) (container : value) (keys : list string)
  : bool * value :=
  match keys with
  | [] => (true, container)
  | key :: keys' =>
      match get_property h container key with
      | Some v => walk h v keys'
      | None => (false, VUndefined)
      end
  end.

(** Modelled from the spec: [extract(container, path) -> (exists,
    value)]: [(false, absent)] if a segment is missing or the container
    there is not indexable, [(true, value)] if the whole path resolves,
    also when the value is [undefined]. *)
Definition extractDeepProperty (h : list obj) (container : value) (p : path)
  : completion (bool * value) :=
  match path_keys p with
  | Normal keys => Normal (walk h container keys)
  | Abrupt e => Abrupt e
  end.

(** Modelled from the spec: writing one key of a stored container.  An
    array takes an index key and grows, with [undefined] in between, when
    the index is past its end; any other key of an array is not
    represented and leaves the store as it is. *)
Definition set_property (h : list obj) (l : loc) (key : string) (v : value)
  : list obj :=
  match h !! l with
  | Some (OObject fields) => <[l := OObject (<[key := v]> fields)]> h
  | Some (OArray elems) =>
      match array_index key with
      | Some i =>
          if decide (i < length elems)
          then <[l := OArray (<[i := v]> elems)]> h
          else <[l := OArray (elems ++ replicate (i - length elems) VUndefined
                                    ++ [v])]> h
      | None => h
      end
  | None => h
  end.

(** Modelled from the spec: the walk of [set]: an intermediate key that
    holds an object is entered, any other is first given a new plain
    object ("creating intermediate plain-object containers as
    needed"). *)
Fixpoint set_walk (h : list obj) (l : loc) (keys : list string) (v : value)
  : list obj :=
  match keys with
  | [] => h
  | key :: keys' =>
      match keys' with
      | [] => set_property h l key v
      | _ :: _ =>
          match get_property h (VRef l) key with
          | Some (VRef l') => set_walk h l' keys' v
          | _ =>
              let l' := length h in
              let h' := set_property (h ++ [OObject ∅]) l key (VRef l') in
              set_walk h' l' keys' v
          end
      end
  end.

(** Modelled from the spec: [set(container, path, value)]. *)
Definition setDeepProperty (h : list obj) (container : value) (p : path)
    (v : value) : list obj * completion unit :=
  match path_keys p with
  | Normal keys =>
      match container with
      | VRef l => (set_walk h l keys v, Normal tt)
      | _ => (h, Normal tt)
      end
  | Abrupt e => (h, Abrupt e)
  end.

End Accessor.


(** ** Deep snapshots and relations used by the statements *)

(** The structure reachable from a value, as deep equality sees it, down
    to [depth] references. *)
#[local] Unset Elimination Schemes.
Inductive tree :=
| TPrim (v : value)
| TObject (fields : list (string * tree))
| TArray (elems : list tree)
| TCut.
#[local] Set Elimination Schemes.

Fixpoint snapshot (depth : nat) (h : list obj) (v : value) : tree :=
  match v with
  | VRef l =>
      match depth with
      | O => TCut
      | S depth' =>
          match h !! l with
          | Some (OObject fields) =>
              TObject (map (fun kv => (fst kv, snapshot depth' h (snd kv)))
                           (map_to_list fields))
          | Some (OArray elems) => TArray (map (snapshot depth' h) elems)
          | None => TCut
          end
      end
  | _ => TPrim v
  end.

(** What a call returned, as deep equality sees it; [None] when it threw
    or ran out of budget. *)
Definition returned {A} (r : result A) (view : A -> value) : option tree :=
  match r with
  | Ret a st => Some (snapshot 8 (st_heap st) (view a))
  | _ => None
  end.

(** The error a call threw. *)
Definition thrown {A} (r : result A) : option error :=
  match r with
  | Throw e _ => Some e
  | _ => None
  end.

(** [steps f xs st ys st']: running [f] on the elements of [xs] in order,
    from [st], returns the elements of [ys] in the same order and ends in
    [st']. *)
Inductive steps {A B} (f : A -> M B)
  : list A -> state -> list B -> state -> Prop :=
| steps_nil st : steps f [] st [] st
| steps_cons x xs y ys st st1 st2 :
    f x st = Ret y st1 ->
    steps f xs st1 ys st2 ->
    steps f (x :: xs) st (y :: ys) st2.

(** [quieter s1 s2]: the two states have one store, and the console of
    [s2] is the console of [s1] with some lines left out. *)
Definition quieter (s1 s2 : state) : Prop :=
  st_heap s1 = st_heap s2 /\ console s2 `sublist_of` console s1.

(** Two results that differ at most in what was written to the console,
    the second having written no line the first has not. *)
Definition same_outcome {A} (r1 r2 : result A) : Prop :=
  match r1, r2 with
  | Ret a s1, Ret b s2 => a = b /\ quieter s1 s2
  | Throw e s1, Throw e' s2 => e = e' /\ quieter s1 s2
  | OutOfFuel, OutOfFuel => True
  | _, _ => False
  end.

(** Two computations that, from states with one store, end alike up to
    the console. *)
Definition console_blind {A} (m1 m2 : M A) : Prop :=
  forall s1 s2, quieter s1 s2 -> same_outcome (m1 s1) (m2 s2).

(** [refines m1 m2]: wherever [m1] ends (returns or throws), [m2] ends the
    same way; [m1] may run out of recursion budget where [m2] does not. *)
Definition refines {A} (m1 m2 : M A) : Prop :=
  forall st, m1 st = OutOfFuel \/ m1 st = m2 st.

(** A computation from which no raw [DeepPropertyError] escapes. *)
Definition no_raw_path_error {A} (m : M A) : Prop :=
  forall st message st', m st <> Throw (DeepPropertyError message) st'.


(** The line written by [warn] for a missing extraction. *)
Definition warning (from : from_t) : string :=
  "Value does not exist at: " +:+ template (stringifyPath from).

(** What the console holds after a missing extraction. *)
Definition warned (opts : options) (from : from_t) (st : state) : state :=
  State (st_heap st)
        (console st ++ if warn opts then [warning from] else []).

(** The state in which the loop starts: the result object has been
    created. *)
Definition started (st : state) : state :=
  State (st_heap st ++ [OObject ∅]) (console st).

(** The transform field passes validation. *)
Definition transform_ok (i : instruction) : bool :=
  is_undefined (i_transform i) || isFunction (i_transform i).

(** The user's functions throw no [DeepPropertyError] of their own. *)
Definition callbacks_throw_no_path_error
    (callFunction : fn_id -> list value -> list obj -> list obj * completion value)
  : Prop :=
  forall f args h h' message,
    callFunction f args h <> (h', Abrupt (DeepPropertyError message)).

(** ** A closed world for examples *)

Module Example.

(** Some user functions: [0] returns its first argument, [1] throws a
    [DeepPropertyError], [2] throws an error of the user's own, [3] is
    [(str) => str + str]. *)
Definition callFunction (f : fn_id) (args : list value) (h : list obj)
  : list obj * completion value :=
  match f with
  | 0 => (h, Normal (default VUndefined (args !! 0)))
  | 1 => (h, Abrupt (DeepPropertyError "boom"))
  | 2 => (h, Abrupt (OtherError "user error"))
  | 3 =>
      match args !! 0 with
      | Some (VStr s) => (h, Normal (VStr (s +:+ s)))
      | _ => (h, Normal VUndefined)
      end
  | _ => (h, Normal VUndefined)
  end.

(** The same functions but for [1], which here returns [undefined]: none
    of them throws a [DeepPropertyError]. *)
Definition quiet_callFunction (f : fn_id) (args : list value) (h : list obj)
  : list obj * completion value :=
  match f with
  | 1 => (h, Normal VUndefined)
  | _ => callFunction f args h
  end.

Definition transformData :=
  transformData Accessor.extractDeepProperty Accessor.setDeepProperty
                callFunction.

Definition run {A} (m : M A) (h : list obj) : result A := m (State h []).

(** [{from: 'foo', to: 'bar', default: 'D'}]. *)
Definition default_instruction : instruction :=
  Instruction (Some (FromPath (PDot "foo"))) (Some (ToPath (PDot "bar")))
              None VUndefined (VStr "D").

(** [{from: {paths: [null]}, to: null}]: the extracted value is the array
    [[source]]. *)
Definition merge_array_instruction : instruction :=
  Instruction (Some (FromMulti [None] VUndefined)) (Some ToNull)
              None VUndefined VUndefined.

(** [{from: {paths: [null], combine}, to: 'x'}] with a [combine] that
    throws a [DeepPropertyError]. *)
Definition combine_throws_instruction : instruction :=
  Instruction (Some (FromMulti [None] (VFun 1))) (Some (ToPath (PDot "x")))
              None VUndefined VUndefined.

(** [{to: 'x', transform: 's'}]: no [from], and a [transform] that is
    not a function. *)
Definition two_faults_instruction : instruction :=
  Instruction None (Some (ToPath (PDot "x"))) None (VStr "s") VUndefined.

(** [[{from: 'a', to: 'x'}, {from: 'a.b', to: 'x.c'}]]. *)
Definition alias_instructions : instrs :=
  Many [Instruction (Some (FromPath (PDot "a"))) (Some (ToPath (PDot "x")))
                    None VUndefined VUndefined;
        Instruction (Some (FromPath (PDot "a.b"))) (Some (ToPath (PDot "x.c")))
                    None VUndefined VUndefined].

(** The source [{a: {b: 1}}], at location [0]. *)
Definition alias_heap : list obj :=
  [OObject {["a" := VRef 1]}; OObject {["b" := VNum 1]}].

(** [{from: {paths: ['a', 'zz']}, to: 'x', default: 'D'}]. *)
Definition missing_one_instruction : instruction :=
  Instruction (Some (FromMulti [Some (PDot "a"); Some (PDot "zz")] VUndefined))
              (Some (ToPath (PDot "x"))) None VUndefined (VStr "D").


(** [{from: 'a', to: 'x', transform: f2}], [f2] throwing. *)
Definition transform_throws_instruction : instruction :=
  Instruction (Some (FromPath (PDot "a"))) (Some (ToPath (PDot "x")))
              None (VFun 2) VUndefined.

(** Sources and helpers of the repository's tests. *)
Definition path_instruction (from to : string) : instruction :=
  Instruction (Some (FromPath (PDot from))) (Some (ToPath (PDot to)))
              None VUndefined VUndefined.

Definition person : list obj :=
  [OObject {["firstName" := VStr "John"; "lastName" := VStr "Doe";
             "address" := VRef 1]};
   OObject {["streetName" := VStr "Tanglewood Drive"; "country" := VRef 2]};
   OObject {["code" := VStr "CA"]}].

Definition jane : list obj :=
  [OObject {["firstName" := VStr "Jane"; "lastName" := VStr "Doe";
             "details" := VRef 1]};
   OObject {["maidenName" := VStr "Smith"]}].

Definition expect (h : list obj) (v : value) : option tree :=
  Some (snapshot 8 h v).

Definition run_test (source : value) (instructions : instrs) (h : list obj)
  : result value :=
  run (transformData 4 source instructions (Options false)) h.

End Example.

(** ** Notions used by the further properties *)

(** An instruction that passes the three checks of the loop head. *)
Definition valid_instruction (i : instruction) : bool :=
  transform_ok i && bool_decide (is_Some (i_from i))
  && bool_decide (is_Some (i_to i)).

(** No instruction of the list has nested instructions. *)
Definition flat (instructions : instrs) : Prop :=
  Forall (fun i => i_instructions i = None) (normalize instructions).

(** [inside i instructions]: [i] is one of the instructions, or one of the
    nested instructions of one of them, at any depth. *)
Inductive inside : instruction -> instrs -> Prop :=
| inside_here i instructions :
    In i (normalize instructions) -> inside i instructions
| inside_nested i j nested instructions :
    In j (normalize instructions) ->
    i_instructions j = Some nested ->
    inside i nested ->
    inside i instructions.

(** Every [to] of the instructions, nested ones included, is [null] or a
    path that satisfies [ok]. *)
Fixpoint every_to (ok : path -> bool) (i : instruction) : bool :=
  match i with
  | Instruction _ to nested _ _ =>
      match to with
      | Some (ToPath p) => ok p
      | _ => true
      end
      && match nested with
         | Some (Single j) => every_to ok j
         | Some (Many l) => forallb (every_to ok) l
         | None => true
         end
  end.

Definition every_to_of (ok : path -> bool) (instructions : instrs) : bool :=
  forallb (every_to ok) (normalize instructions).

(** A line written by [warn]. *)
Definition is_warning (line : string) : Prop :=
  exists from, line = warning from.

(** A computation that, when it returns, has added to the console only
    lines written by [warn], and none at all when [quiet]. *)
Definition writes_only_warnings (quiet : bool) {A} (m : M A) : Prop :=
  forall st a st',
    m st = Ret a st' ->
    exists lines,
      console st' = console st ++ lines
      /\ Forall is_warning lines
      /\ (quiet = true -> lines = []).

(** Where a [DataTransformError] of a call on [instructions] may come
    from: the source check, which names no instruction, or an instruction
    inside [instructions]. *)
Definition provenance (instructions : instrs)
    (message : string) (carried : option instruction) : Prop :=
  (carried = None /\ message = "Source must be an object or an array")
  \/ (exists i, carried = Some i /\ inside i instructions).

(** Every [DataTransformError] the computation throws satisfies [P]. *)
Definition raises_within (P : string -> option instruction -> Prop)
    {A} (m : M A) : Prop :=
  forall st message carried st',
    m st = Throw (DataTransformError message carried) st' -> P message carried.

(** [keeps h0 Q m]: run from a store that begins with [h0], [m] ends in a
    store that begins with [h0] (the objects of [h0] are where they were
    and as they were), and a returned value satisfies [Q]. *)
Definition keeps (h0 : list obj) {A} (Q : A -> Prop) (m : M A) : Prop :=
  forall st,
    h0 `prefix_of` st_heap st ->
    match m st with
    | Ret a st' => h0 `prefix_of` st_heap st' /\ Q a
    | Throw _ st' => h0 `prefix_of` st_heap st'
    | OutOfFuel => True
    end.

(** A reference to an object created after [h0]. *)
Definition beyond (h0 : list obj) (v : value) : Prop :=
  exists l, v = VRef l /\ length h0 <= l.

(** A computation that never runs out of recursion budget. *)
Definition ends {A} (m : M A) : Prop := forall st, m st <> OutOfFuel.

(** The string has no dot. *)
Definition dotless (s : string) : Prop :=
  forall c, In c (String.list_ascii_of_string s) -> c <> "."%char.

(** A path of one key for the accessor of the contract (a path it rejects
    writes nothing and counts too). *)
Definition single_key (p : path) : bool :=
  match Accessor.path_keys p with
  | Normal [_] => true
  | Normal _ => false
  | Abrupt _ => true
  end.

(** * Properties *)

Create HintDb js discriminated.
#[local] Hint Unfold bind ret throw try_catch console_warn get_heap alloc
  lift_heap lift_read : js.

Ltac js_unfold := autounfold with js in *; simpl in *.

Ltac unfold_extractProperty := unfold extractProperty in *.
Ltac unfold_extractCombined := unfold extractCombinedProperties in *.
Ltac unfold_extractSource := unfold extractSource in *.
Ltac unfold_compute := unfold computeResultValue in *.
Ltac unfold_write := unfold writeResult in *.
Ltac unfold_process := unfold processInstruction in *.
Ltac unfold_validate := unfold validate in *.
Ltac unfold_call := unfold call in *.
Ltac unfold_rethrow := unfold rethrow, throwUnexpectedError in *.
Ltac unfold_transformObject := unfold transformObject in *.

Section Facts.

Variable extractDeepProperty :
  list obj -> value -> path -> completion (bool * value).
Variable setDeepProperty :
  list obj -> value -> path -> value -> list obj * completion unit.
Variable callFunction :
  fn_id -> list value -> list obj -> list obj * completion value.

Local Abbreviation extractProperty := (extractProperty extractDeepProperty).
Local Abbreviation extractCombinedProperties :=
  (extractCombinedProperties extractDeepProperty callFunction).
Local Abbreviation extractSource :=
  (extractSource extractDeepProperty callFunction).
Local Abbreviation computeResultValue := (computeResultValue callFunction).
Local Abbreviation writeResult := (writeResult setDeepProperty).
Local Abbreviation processInstruction :=
  (processInstruction extractDeepProperty setDeepProperty callFunction).
Local Abbreviation transformObject :=
  (transformObject extractDeepProperty setDeepProperty callFunction).
Local Abbreviation transformData :=
  (transformData extractDeepProperty setDeepProperty callFunction).
Local Abbreviation call := (call callFunction).
Local Abbreviation callbacks_throw_no_path_error :=
  (callbacks_throw_no_path_error callFunction).

(** [combinedSource] holds exactly for the multi-source descriptors, the
    case [extractSource] hands to [extractCombinedProperties]. *)
Lemma combinedSource_multi from :
  combinedSource from = true <-> exists paths combine, from = FromMulti paths combine.
Proof.
  split.
  - destruct from; try discriminate. eauto.
  - intros (paths & combine & ->). reflexivity.
Qed.

(** ** Loops *)

Lemma array_map_steps {A B} (f : A -> M B) xs st ys st' :
  array_map f xs st = Ret ys st' <-> steps f xs st ys st'.
Proof.
  split.
  - revert st ys. induction xs as [|x xs IH]; intros st ys H.
    + js_unfold. inversion H; subst. constructor.
    + simpl in H. unfold bind at 1 in H.
      destruct (f x st) as [y st1| |] eqn:Hf; try discriminate.
      unfold bind at 1 in H.
      destruct (array_map f xs st1) as [ys' st2| |] eqn:Hm; try discriminate.
      inversion H; subst. econstructor; eauto.
  - induction 1 as [|x xs y ys st st1 st2 Hf _ IH]; [reflexivity|].
    simpl. unfold bind at 1. rewrite Hf. unfold bind at 1. rewrite IH.
    reflexivity.
Qed.


(** The first throw ends [array_map] with that throw. *)
Lemma array_map_throw {A B} (f : A -> M B) pre x post st ys st1 e st2 :
  steps f pre st ys st1 ->
  f x st1 = Throw e st2 ->
  array_map f (pre ++ x :: post) st = Throw e st2.
Proof.
  induction 1 as [|x0 xs y ys st st1 st3 Hf _ IH]; intros Hx; simpl.
  - unfold bind at 1. rewrite Hx. reflexivity.
  - unfold bind at 1. rewrite Hf. unfold bind at 1. rewrite IH by assumption.
    reflexivity.
Qed.

(** The first throw ends [for_of] with that throw. *)
Lemma for_of_throw {A} (body : A -> M unit) pre x post st st1 e st2 :
  for_of pre body st = Ret tt st1 ->
  body x st1 = Throw e st2 ->
  for_of (pre ++ x :: post) body st = Throw e st2.
Proof.
  revert st. induction pre as [|x0 pre IH]; intros st Hpre Hx; simpl in *.
  - js_unfold. inversion Hpre; subst. rewrite Hx. reflexivity.
  - unfold bind at 1 in Hpre. unfold bind at 1.
    destruct (body x0 st) as [[] st0| |]; try discriminate.
    eapply IH; eauto.
Qed.

(** ** Reading the source *)

Lemma extractProperty_state sourceObject p st :
  (forall e st', extractProperty sourceObject p st = Ret e st' -> st' = st)
  /\ (forall e st', extractProperty sourceObject p st = Throw e st' -> st' = st)
  /\ extractProperty sourceObject p st <> OutOfFuel.
Proof.
  destruct st as [h c]. unfold_extractProperty.
  destruct p as [p|]; js_unfold.
  - destruct (extractDeepProperty h sourceObject p);
      repeat split; intros; try discriminate; congruence.
  - repeat split; intros; try discriminate; congruence.
Qed.

Lemma extracts_steps sourceObject paths extracts st :
  Forall2 (fun p e => extractProperty sourceObject p st = Ret e st)
          paths extracts ->
  steps (extractProperty sourceObject) paths st extracts st.
Proof. induction 1; econstructor; eauto. Qed.

Lemma steps_extracts sourceObject paths extracts st st' :
  steps (extractProperty sourceObject) paths st extracts st' ->
  st' = st /\
  Forall2 (fun p e => extractProperty sourceObject p st = Ret e st)
          paths extracts.
Proof.
  induction 1 as [|x xs y ys st st1 st2 Hf _ IH]; [split; constructor|].
  pose proof (proj1 (extractProperty_state sourceObject x st) _ _ Hf); subst st1.
  destruct IH as [-> IH]. split; [reflexivity|]. constructor; assumption.
Qed.

Lemma allExist_forallb (extracts : list (bool * value)) b :
  foldl (fun state (e : bool * value) => state && fst e) b extracts
  = b && forallb fst extracts.
Proof.
  revert b. induction extracts as [|e es IH]; intros b; simpl.
  - by rewrite andb_true_r.
  - rewrite IH. by rewrite andb_assoc.
Qed.

Lemma allValues_map (extracts : list (bool * value)) acc :
  foldl (fun values (e : bool * value) => values ++ [snd e]) acc extracts
  = acc ++ map snd extracts.
Proof.
  revert acc. induction extracts as [|e es IH]; intros acc; simpl.
  - by rewrite app_nil_r.
  - rewrite IH. by rewrite <- app_assoc.
Qed.

(** [extractCombinedProperties] once the sub-extractions are known. *)
Lemma extractCombinedProperties_eq sourceObject paths combine extracts st :
  Forall2 (fun p e => extractProperty sourceObject p st = Ret e st)
          paths extracts ->
  extractCombinedProperties sourceObject paths combine st =
    if forallb fst extracts then
      if truthy combine
      then (v <- call combine (map snd extracts) ;; ret (true, v)) st
      else (a <- alloc (OArray (map snd extracts)) ;; ret (true, a)) st
    else Ret (false, VUndefined) st.
Proof.
  intros H. apply extracts_steps, array_map_steps in H.
  unfold_extractCombined. unfold bind at 1. rewrite H.
  rewrite allExist_forallb, allValues_map. simpl.
  destruct (forallb fst extracts); simpl; [|reflexivity].
  destruct (truthy combine); reflexivity.
Qed.

Lemma validate_ok i from to st :
  transform_ok i = true -> i_from i = Some from -> i_to i = Some to ->
  validate i st = Ret (from, to) st.
Proof.
  unfold transform_ok. intros Ht Hf Hto. unfold_validate.
  rewrite Hf, Hto.
  destruct (is_undefined (i_transform i)), (isFunction (i_transform i));
    simpl in *; try discriminate; reflexivity.
Qed.

(** The missing branch of [computeResultValue]: the default, or
    [undefined], and at most a line on the console. *)
Lemma computeResultValue_missing recur opts sourceObject resultObject i from v st :
  computeResultValue recur opts sourceObject resultObject i from (false, v) st
  = Ret (i_default i) (warned opts from st).
Proof.
  unfold_compute. unfold warned, warning. destruct st as [h c].
  destruct (warn opts); js_unfold.
  - destruct (i_default i); reflexivity.
  - rewrite app_nil_r. destruct (i_default i); reflexivity.
Qed.

(** ** One turn of the loop, by the outcome of the extraction *)

(** A single-path extraction that the accessor answers. *)
Lemma extractSource_path sourceObject i p r st :
  extractDeepProperty (st_heap st) sourceObject p = Normal r ->
  extractSource sourceObject i (FromPath p) st = Ret r st.
Proof.
  intros H. unfold_extractSource. unfold_extractProperty. js_unfold.
  rewrite H. by destruct st.
Qed.

(** A turn whose instruction is valid and whose extraction returned. *)
Lemma processInstruction_extracted
    recur opts sourceObject resultObject i from to extract st st1 :
  transform_ok i = true -> i_from i = Some from -> i_to i = Some to ->
  extractSource sourceObject i from st = Ret extract st1 ->
  processInstruction recur opts sourceObject resultObject i st =
    (resultValue <-
       computeResultValue recur opts sourceObject resultObject i from extract ;;
     writeResult resultObject i to resultValue) st1.
Proof.
  intros Hok Hf Ht He. unfold_process.
  unfold bind at 1. rewrite (validate_ok i _ _ st Hok Hf Ht). simpl.
  unfold bind at 1. rewrite He. reflexivity.
Qed.

(** C1 (as the code has it): for an instruction whose [from] is a
    multi-source descriptor and whose sub-paths are each extracted without
    an accessor error (with results [extracts], in [paths] order), the
    extraction of the turn reports "exists" exactly when every
    sub-extraction does.  When one is missing the extraction is
    [(false, undefined)], nothing is called, and the turn writes the
    instruction's [default] ([undefined] when it has none) without running
    nested instructions or [transform].  When all exist the extracted value
    is what [combine] returns, called on the extracted values in order, or,
    without [combine], a new array of these values, and the turn goes on
    with that value as an existing one. *)
Theorem multi_source_all_or_nothing
    sourceObject resultObject paths combine extracts st recur opts i :
  Forall2 (fun p e => extractProperty sourceObject p st = Ret e st)
          paths extracts ->
  let from := FromMulti paths combine in
  let values := map snd extracts in
  let extraction := extractSource sourceObject i from st in
  let turn := processInstruction recur opts sourceObject resultObject i st in
  let array := VRef (length (st_heap st)) in
  let with_array := State (st_heap st ++ [OArray values]) (console st) in
  (forall b v st', extraction = Ret (b, v) st' ->
     (b = true <-> Forall (fun e => fst e = true) extracts))
  /\ (Exists (fun e => fst e = false) extracts ->
      extraction = Ret (false, VUndefined) st)
  /\ (Forall (fun e => fst e = true) extracts ->
      forall f, combine = VFun f ->
      extraction =
        match callFunction f values (st_heap st) with
        | (h, Normal v) => Ret (true, v) (State h (console st))
        | (h, Abrupt e) => rethrow "from" i e (State h (console st))
        end)
  /\ (Forall (fun e => fst e = true) extracts ->
      truthy combine = false ->
      extraction = Ret (true, array) with_array)
  /\ (forall to,
      transform_ok i = true -> i_from i = Some from -> i_to i = Some to ->
      let continue extract :=
        resultValue <-
          computeResultValue recur opts sourceObject resultObject i from
                             extract ;;
        writeResult resultObject i to resultValue in
      (Exists (fun e => fst e = false) extracts ->
       turn = writeResult resultObject i to (i_default i)
                          (warned opts from st))
      /\ (Forall (fun e => fst e = true) extracts ->
          forall f, combine = VFun f ->
          turn =
            match callFunction f values (st_heap st) with
            | (h, Normal v) => continue (true, v) (State h (console st))
            | (h, Abrupt e) => rethrow "from" i e (State h (console st))
            end)
      /\ (Forall (fun e => fst e = true) extracts ->
          truthy combine = false ->
          turn = continue (true, array) with_array)).
Proof.
  intros Hex from values extraction turn array with_array.
  assert (Hall : forallb fst extracts = true
                 <-> Forall (fun e => fst e = true) extracts).
  { rewrite forallb_forall, Forall_forall.
    split; intros H x Hx; apply H; by apply list_elem_of_In. }
  assert (Hmiss : Exists (fun e => fst e = false) extracts ->
                  forallb fst extracts = false).
  { intros Hm. apply not_true_is_false. intros E.
    apply Hall in E. apply Exists_exists in Hm as (x & Hx & Hf).
    rewrite Forall_forall in E. specialize (E x Hx). congruence. }
  pose proof (extractCombinedProperties_eq sourceObject paths combine
                extracts st Hex) as Heq.
  fold values in Heq.
  assert (Hmissing : Exists (fun e => fst e = false) extracts ->
                     extraction = Ret (false, VUndefined) st).
  { intros Hm. subst extraction from. unfold_extractSource.
    unfold try_catch. rewrite Heq, (Hmiss Hm). reflexivity. }
  assert (Hcombine : Forall (fun e => fst e = true) extracts ->
            forall f, combine = VFun f ->
            extraction =
              match callFunction f values (st_heap st) with
              | (h, Normal v) => Ret (true, v) (State h (console st))
              | (h, Abrupt e) => rethrow "from" i e (State h (console st))
              end).
  { intros Hf f ->. apply Hall in Hf. subst extraction from.
    unfold_extractSource. unfold try_catch. rewrite Heq, Hf. simpl.
    unfold_call. js_unfold.
    destruct (callFunction f values (st_heap st)) as [h [a|e]]; reflexivity. }
  assert (Harray : Forall (fun e => fst e = true) extracts ->
            truthy combine = false ->
            extraction = Ret (true, array) with_array).
  { intros Hf Hc. apply Hall in Hf. subst extraction from.
    unfold_extractSource. unfold try_catch. rewrite Heq, Hf, Hc.
    reflexivity. }
  split; [|split; [exact Hmissing|split; [exact Hcombine|split;
            [exact Harray|]]]].
  - intros b v st' H. split.
    + intros ->. apply Hall. apply not_false_iff_true. intros E.
      subst extraction from. unfold_extractSource. unfold try_catch in H.
      rewrite Heq, E in H. by inversion H.
    + intros Hf. apply Hall in Hf. subst extraction from.
      unfold_extractSource. unfold try_catch in H. rewrite Heq, Hf in H.
      destruct (truthy combine).
      * unfold bind in H.
        destruct (call combine values st) as [a st1|e st1|].
        -- by inversion H.
        -- destruct e; discriminate.
        -- discriminate.
      * by inversion H.
  - intros to Hok Hfrom Hto continue. repeat split.
    + intros Hm. subst turn.
      rewrite (processInstruction_extracted recur opts sourceObject
                 resultObject i from to _ st st Hok Hfrom Hto (Hmissing Hm)).
      unfold bind at 1. rewrite computeResultValue_missing. reflexivity.
    + intros Hf f Hc. specialize (Hcombine Hf f Hc).
      destruct (callFunction f values (st_heap st)) as [h [v|e]].
      * subst turn.
        exact (processInstruction_extracted recur opts sourceObject
                 resultObject i from to _ st _ Hok Hfrom Hto Hcombine).
      * subst turn. unfold_process.
        unfold bind at 1. rewrite (validate_ok i _ _ st Hok Hfrom Hto). simpl.
        unfold bind at 1. fold from. fold extraction. rewrite Hcombine.
        destruct e; reflexivity.
    + intros Hf Hc. subst turn.
      exact (processInstruction_extracted recur opts sourceObject
               resultObject i from to _ st _ Hok Hfrom Hto (Harray Hf Hc)).
Qed.

(** The existing branch of [computeResultValue] never reads [default]. *)
Lemma computeResultValue_ignores_default
    recur opts sourceObject resultObject f t n tr d d' from v st :
  computeResultValue recur opts sourceObject resultObject
                     (Instruction f t n tr d) from (true, v) st
  = computeResultValue recur opts sourceObject resultObject
                       (Instruction f t n tr d') from (true, v) st.
Proof. reflexivity. Qed.

(** The existing branch without nested instructions and without
    [transform]: the extracted value itself. *)
Lemma computeResultValue_plain
    recur opts sourceObject resultObject i from v st :
  i_instructions i = None -> truthy (i_transform i) = false ->
  computeResultValue recur opts sourceObject resultObject i from (true, v) st
  = Ret v st.
Proof. intros Hn Ht. unfold_compute. rewrite Hn, Ht. reflexivity. Qed.


(** ** The recursion budget *)



Lemma refines_try_catch {A} (m1 m2 : M A) (h : error -> M A) :
  refines m1 m2 -> refines (try_catch m1 h) (try_catch m2 h).
Proof.
  intros Hm st. unfold try_catch. destruct (Hm st) as [->| <-]; [by left|].
  by right.
Qed.




Lemma transformData_S fuel sourceObject instructions opts :
  transformData (S fuel) sourceObject instructions opts =
    (h <- get_heap ;;
     match array_elements h sourceObject with
     | Some elems =>
         results <-
           array_map (fun el => transformData fuel el instructions opts) elems ;;
         alloc (OArray results)
     | None =>
         transformObject
           (fun value nested => transformData fuel value nested opts)
           sourceObject instructions opts
     end).
Proof. reflexivity. Qed.



(** ** Array fan-out *)

Lemma transformData_array fuel l elems instructions opts st :
  st_heap st !! l = Some (OArray elems) ->
  transformData (S fuel) (VRef l) instructions opts st =
    (results <-
       array_map (fun sourceElement =>
                    transformData fuel sourceElement instructions opts)
                 elems ;;
     alloc (OArray results)) st.
Proof.
  intros H. simpl. unfold bind at 1. unfold get_heap. simpl. rewrite H.
  reflexivity.
Qed.


(** ** Merging with [to: null] *)

Lemma isObject_ref v : isObject v = true <-> exists l, v = VRef l.
Proof.
  split.
  - destruct v; try discriminate. eauto.
  - intros [l ->]. reflexivity.
Qed.

(** The own properties of an array are its elements under their index
    keys. *)
Lemma own_properties_array elems (k : nat) :
  own_properties (OArray elems) !! pretty k = elems !! k.
Proof.
  simpl.
  assert (Hnd : NoDup (imap (fun i v => (pretty i, v)) elems).*1).
  { rewrite fmap_imap. simpl.
    apply NoDup_alt. intros a b x Ha Hb.
    apply list_lookup_imap_Some in Ha as (? & _ & ->).
    apply list_lookup_imap_Some in Hb as (? & _ & Hb).
    simpl in Hb. by apply (inj pretty) in Hb. }
  destruct (elems !! k) as [v|] eqn:Hk.
  - apply elem_of_list_to_map; [exact Hnd|].
    apply list_elem_of_lookup. exists k.
    apply list_lookup_imap_Some. eauto.
  - apply not_elem_of_list_to_map. intros Hin.
    apply list_elem_of_fmap in Hin as ([key v] & Hkey & Hin). simpl in Hkey.
    apply list_elem_of_lookup in Hin as [j Hj].
    apply list_lookup_imap_Some in Hj as (x & Hx & Heq).
    inversion Heq; subst. apply (inj pretty) in H0. subst. congruence.
Qed.

(** C5 (as the code has it): with [to: null] the produced value must be
    a non-null object, that is a reference to a plain object or to an
    array; any other value ends the call with the [DataTransformError]
    "Cannot assign properties from a non-object", carrying the
    instruction.  For an object every own property (for an array: every
    element under its index key) is written to the result, replacing a
    property of the same name and keeping the others. *)
Theorem merge_requires_object resultObject i v st :
  (isObject v = true <-> exists l, v = VRef l)
  /\ (isObject v = false ->
      writeResult resultObject i ToNull v st =
        Throw (DataTransformError
                 "Cannot assign properties from a non-object" (Some i)) st)
  /\ (forall lt ls tf o,
      resultObject = VRef lt -> v = VRef ls ->
      st_heap st !! lt = Some (OObject tf) -> st_heap st !! ls = Some o ->
      writeResult resultObject i ToNull v st =
        Ret tt (State (<[lt := OObject (own_properties o ∪ tf)]> (st_heap st))
                      (console st))
      /\ forall key,
          (own_properties o ∪ tf) !! key =
            match own_properties o !! key with
            | Some x => Some x
            | None => tf !! key
            end)
  /\ (forall fields, own_properties (OObject fields) = fields)
  /\ (forall elems (k : nat),
      own_properties (OArray elems) !! pretty k = elems !! k).
Proof.
  split; [apply isObject_ref|]. split; [|split; [|split]].
  - intros H. unfold_write. rewrite H. reflexivity.
  - intros lt ls tf o -> -> Ht Hs. split.
    + unfold_write. simpl. unfold Object_assign. rewrite Ht, Hs. reflexivity.
    + intros key. rewrite lookup_union.
      destruct (own_properties o !! key), (tf !! key); reflexivity.
  - reflexivity.
  - apply own_properties_array.
Qed.

(** ** Errors of the accessor *)

Lemma rethrow_path_error {A} field i message st :
  @rethrow A field i (DeepPropertyError message) st =
    Throw (DataTransformError (wrapped field message) (Some i)) st.
Proof. reflexivity. Qed.

Lemma rethrow_other {A} field i e st :
  (forall message, e <> DeepPropertyError message) ->
  @rethrow A field i e st =
    Throw e (State (st_heap st)
                   (console st ++ ["This error should not happen."])).
Proof.
  intros H. destruct e; try reflexivity. by destruct (H message).
Qed.

Lemma no_raw_ret {A} (a : A) : no_raw_path_error (ret a).
Proof. intros st m st'. discriminate. Qed.

Lemma no_raw_throw {A} e :
  (forall message, e <> DeepPropertyError message) ->
  no_raw_path_error (@throw A e).
Proof. intros H st m st' [= -> _]. by eapply H. Qed.

Lemma no_raw_bind {A B} (m : M A) (k : A -> M B) :
  no_raw_path_error m -> (forall a, no_raw_path_error (k a)) ->
  no_raw_path_error (bind m k).
Proof.
  intros Hm Hk st msg st'. unfold bind.
  destruct (m st) as [a st1|e st1|] eqn:E; try discriminate.
  - apply Hk.
  - intros [= -> ->]. by eapply Hm.
Qed.

Lemma no_raw_rethrow {A} (m : M A) field i :
  no_raw_path_error (try_catch m (rethrow field i)).
Proof.
  intros st msg st'. unfold try_catch.
  destruct (m st) as [a st1|e st1|]; try discriminate.
  destruct e; discriminate.
Qed.

Lemma no_raw_array_map {A B} (f : A -> M B) xs :
  (forall x, no_raw_path_error (f x)) -> no_raw_path_error (array_map f xs).
Proof.
  intros Hf. induction xs as [|x xs IH]; simpl.
  - apply no_raw_ret.
  - apply no_raw_bind; [apply Hf|]. intros y.
    apply no_raw_bind; [apply IH|]. intros ys. apply no_raw_ret.
Qed.

Lemma no_raw_for_of {A} (body : A -> M unit) xs :
  (forall x, no_raw_path_error (body x)) -> no_raw_path_error (for_of xs body).
Proof.
  intros Hf. induction xs as [|x xs IH]; simpl.
  - apply no_raw_ret.
  - apply no_raw_bind; [apply Hf|]. intros _. apply IH.
Qed.

Lemma no_raw_Object_assign target source :
  no_raw_path_error (Object_assign target source).
Proof.
  intros st msg st'. unfold Object_assign.
  destruct target, source; try discriminate.
  destruct (st_heap st !! l) as [[]|]; try discriminate.
  destruct (st_heap st !! l0); discriminate.
Qed.

Lemma no_raw_call f args :
  callbacks_throw_no_path_error -> no_raw_path_error (call f args).
Proof.
  intros H st msg st'. unfold_call. destruct f; try discriminate.
  js_unfold. destruct (callFunction f args (st_heap st)) as [h [a|e]] eqn:E;
    try discriminate.
  intros [= -> _]. by eapply H.
Qed.

Lemma no_raw_processInstruction recur opts sourceObject resultObject i :
  callbacks_throw_no_path_error ->
  (forall v n, no_raw_path_error (recur v n)) ->
  no_raw_path_error
    (processInstruction recur opts sourceObject resultObject i).
Proof.
  intros Hcb Hrec. unfold_process.
  apply no_raw_bind.
  { unfold_validate.
    destruct (negb (is_undefined (i_transform i)) &&
              negb (isFunction (i_transform i)));
      [by apply no_raw_throw|].
    destruct (i_from i); [|by apply no_raw_throw].
    destruct (i_to i); [apply no_raw_ret|by apply no_raw_throw]. }
  intros [from to]. simpl.
  apply no_raw_bind; [apply no_raw_rethrow|]. intros [ex v].
  apply no_raw_bind.
  { unfold_compute. destruct ex.
    - apply no_raw_bind.
      + destruct (i_instructions i); [apply Hrec|apply no_raw_ret].
      + intros rv. destruct (truthy (i_transform i));
          [by apply no_raw_call|apply no_raw_ret].
    - apply no_raw_bind.
      + destruct (warn opts); [|apply no_raw_ret].
        intros st msg st'. discriminate.
      + intros _. destruct (negb (is_undefined (i_default i)));
          apply no_raw_ret. }
  intros rv. unfold_write. destruct to.
  - destruct (negb (isObject rv));
      [by apply no_raw_throw|apply no_raw_Object_assign].
  - apply no_raw_rethrow.
Qed.

Lemma no_raw_transformData fuel sourceObject instructions opts :
  callbacks_throw_no_path_error ->
  no_raw_path_error (transformData fuel sourceObject instructions opts).
Proof.
  intros Hcb. revert sourceObject instructions.
  induction fuel as [|fuel IH]; intros sourceObject instructions.
  - intros st msg st'. discriminate.
  - simpl. apply no_raw_bind; [intros st msg st'; discriminate|].
    intros h. destruct (array_elements h sourceObject).
    + apply no_raw_bind; [apply no_raw_array_map; intros x; apply IH|].
      intros rs st msg st'. discriminate.
    + unfold_transformObject.
      apply no_raw_bind; [intros st msg st'; discriminate|]. intros h'.
      destruct (negb (isObject sourceObject) && negb (isArray h' sourceObject));
        [by apply no_raw_throw|].
      apply no_raw_bind; [intros st msg st'; discriminate|]. intros res.
      apply no_raw_bind; [|intros _; apply no_raw_ret].
      apply no_raw_for_of. intros i.
      apply no_raw_processInstruction; [exact Hcb|]. intros v n. apply IH.
Qed.

(** C7: a [DeepPropertyError] of the accessor met while extracting
    [from] (a single path, or any sub-path of a multi-source descriptor
    whose earlier sub-paths were extracted) ends the turn with a
    [DataTransformError] whose message is [In "from": ] followed by the
    accessor's message and which carries the instruction; one met while
    setting [to] does the same with [In "to": ]; and, as long as the
    user's own functions throw no [DeepPropertyError], no
    [DeepPropertyError] leaves [transformData]. *)
Theorem path_errors_are_wrapped sourceObject resultObject i st message :
  (forall p,
      extractDeepProperty (st_heap st) sourceObject p
        = Abrupt (DeepPropertyError message) ->
      extractSource sourceObject i (FromPath p) st =
        Throw (DataTransformError (wrapped "from" message) (Some i)) st)
  /\ (forall pre p post combine extracts,
      Forall2 (fun q e => extractProperty sourceObject q st = Ret e st)
              pre extracts ->
      extractDeepProperty (st_heap st) sourceObject p
        = Abrupt (DeepPropertyError message) ->
      extractSource sourceObject i
                    (FromMulti (pre ++ Some p :: post) combine) st =
        Throw (DataTransformError (wrapped "from" message) (Some i)) st)
  /\ (forall p v h',
      setDeepProperty (st_heap st) resultObject p v
        = (h', Abrupt (DeepPropertyError message)) ->
      writeResult resultObject i (ToPath p) v st =
        Throw (DataTransformError (wrapped "to" message) (Some i))
              (State h' (console st)))
  /\ (forall recur opts p to,
      transform_ok i = true -> i_from i = Some (FromPath p) ->
      i_to i = Some to ->
      extractDeepProperty (st_heap st) sourceObject p
        = Abrupt (DeepPropertyError message) ->
      processInstruction recur opts sourceObject resultObject i st =
        Throw (DataTransformError (wrapped "from" message) (Some i)) st)
  /\ (forall recur opts from p st0 extract st1 resultValue h',
      transform_ok i = true -> i_from i = Some from ->
      i_to i = Some (ToPath p) ->
      extractSource sourceObject i from st0 = Ret extract st1 ->
      computeResultValue recur opts sourceObject resultObject i from extract st1
        = Ret resultValue st ->
      setDeepProperty (st_heap st) resultObject p resultValue
        = (h', Abrupt (DeepPropertyError message)) ->
      processInstruction recur opts sourceObject resultObject i st0 =
        Throw (DataTransformError (wrapped "to" message) (Some i))
              (State h' (console st)))
  /\ (callbacks_throw_no_path_error ->
      forall fuel source instructions opts st0 st',
        transformData fuel source instructions opts st0
        <> Throw (DeepPropertyError message) st').
Proof.
  assert (Hone : forall p,
             extractDeepProperty (st_heap st) sourceObject p
               = Abrupt (DeepPropertyError message) ->
             extractProperty sourceObject (Some p) st
               = Throw (DeepPropertyError message) st).
  { intros p H. unfold_extractProperty. js_unfold. rewrite H. by destruct st. }
  assert (Hfrom : forall p,
             extractDeepProperty (st_heap st) sourceObject p
               = Abrupt (DeepPropertyError message) ->
             extractSource sourceObject i (FromPath p) st =
               Throw (DataTransformError (wrapped "from" message) (Some i)) st).
  { intros p H. unfold_extractSource. unfold try_catch.
    rewrite (Hone p H). reflexivity. }
  assert (Hto : forall p v h',
             setDeepProperty (st_heap st) resultObject p v
               = (h', Abrupt (DeepPropertyError message)) ->
             writeResult resultObject i (ToPath p) v st =
               Throw (DataTransformError (wrapped "to" message) (Some i))
                     (State h' (console st))).
  { intros p v h' H. unfold_write. unfold try_catch, lift_heap.
    rewrite H. reflexivity. }
  split; [exact Hfrom|]. split; [|split; [exact Hto|split; [|split]]].
  - intros pre p post combine extracts Hpre H.
    unfold_extractSource. unfold try_catch. unfold_extractCombined.
    unfold bind at 1.
    rewrite (array_map_throw _ pre (Some p) post st extracts st _ st
               (extracts_steps _ _ _ _ Hpre) (Hone p H)).
    reflexivity.
  - intros recur opts p to Hok Hf Ht H. unfold_process.
    unfold bind at 1. rewrite (validate_ok i _ _ st Hok Hf Ht). simpl.
    unfold bind at 1. rewrite (Hfrom p H). reflexivity.
  - intros recur opts from p st0 extract st1 rv h' Hok Hf Ht Hex Hc H.
    rewrite (processInstruction_extracted _ _ _ _ _ _ _ _ _ _ Hok Hf Ht Hex).
    unfold bind. rewrite Hc. by apply Hto.
  - intros Hcb fuel source instructions opts st0 st'.
    by apply no_raw_transformData.
Qed.

(** ** The loop of [transformData] on an object *)

Lemma transformData_object fuel sourceObject instructions opts st :
  array_elements (st_heap st) sourceObject = None ->
  isObject sourceObject = true ->
  transformData (S fuel) sourceObject instructions opts st =
    (for_of (normalize instructions)
            (processInstruction
               (fun value nested => transformData fuel value nested opts)
               opts sourceObject (VRef (length (st_heap st)))) ;;;
     ret (VRef (length (st_heap st)))) (started st).
Proof.
  intros Ha Ho. simpl. unfold bind at 1. unfold get_heap. rewrite Ha.
  unfold_transformObject. unfold bind at 1. rewrite Ho. reflexivity.
Qed.

(** A throw of one turn, reached after the turns before it returned, ends
    the call with that throw: nothing in [transformData] catches it. *)
Lemma transformData_turn_throws
    fuel sourceObject instructions opts st pre i post st1 e st2 :
  array_elements (st_heap st) sourceObject = None ->
  isObject sourceObject = true ->
  normalize instructions = pre ++ i :: post ->
  let turn :=
    processInstruction
      (fun value nested => transformData fuel value nested opts)
      opts sourceObject (VRef (length (st_heap st))) in
  for_of pre turn (started st) = Ret tt st1 ->
  turn i st1 = Throw e st2 ->
  transformData (S fuel) sourceObject instructions opts st = Throw e st2.
Proof.
  intros Ha Ho Hn turn Hpre Hi.
  rewrite (transformData_object _ _ _ _ _ Ha Ho), Hn. unfold bind.
  fold turn. rewrite (for_of_throw turn pre i post _ _ _ _ Hpre Hi).
  reflexivity.
Qed.

(** ** Validation *)

(** C9: every instruction is checked at the head of its turn, before
    anything of it is processed (the state of the error is the one the
    turn started in).  An instruction whose [transform] is present and not
    a function fails with "Transform is not a function"; one whose [from]
    is absent, its [transform] passing, fails with
    [Must supply "from" key path]; one whose [to] is absent, the other two
    passing, fails with [Must supply "to" key path].  Each error is a
    [DataTransformError] carrying the instruction.  [from: null] and
    [to: null] are present: such an instruction passes the checks.  The
    error of a turn reached after the earlier turns returned is the error
    of the call. *)
Theorem validation_order recur opts sourceObject resultObject i st :
  (transform_ok i = false ->
     processInstruction recur opts sourceObject resultObject i st =
       Throw (DataTransformError "Transform is not a function" (Some i)) st)
  /\ (transform_ok i = true -> i_from i = None ->
      processInstruction recur opts sourceObject resultObject i st =
        Throw (DataTransformError (missing "from") (Some i)) st)
  /\ (transform_ok i = true -> is_Some (i_from i) -> i_to i = None ->
      processInstruction recur opts sourceObject resultObject i st =
        Throw (DataTransformError (missing "to") (Some i)) st)
  /\ (forall from to,
      transform_ok i = true -> i_from i = Some from -> i_to i = Some to ->
      validate i st = Ret (from, to) st)
  /\ (transform_ok i = true -> i_from i = Some FromNull ->
      i_to i = Some ToNull ->
      validate i st = Ret (FromNull, ToNull) st)
  /\ (forall fuel instructions pre post st0 e,
      array_elements (st_heap st0) sourceObject = None ->
      isObject sourceObject = true ->
      normalize instructions = pre ++ i :: post ->
      let turn :=
        processInstruction
          (fun value nested => transformData fuel value nested opts)
          opts sourceObject (VRef (length (st_heap st0))) in
      for_of pre turn (started st0) = Ret tt st ->
      validate i st = Throw e st ->
      transformData (S fuel) sourceObject instructions opts st0 = Throw e st).
Proof.
  unfold transform_ok. split; [|split; [|split; [|split; [|split]]]].
  - intros Ht. unfold_process. unfold_validate. unfold bind.
    destruct (is_undefined (i_transform i)), (isFunction (i_transform i));
      simpl in *; try discriminate; reflexivity.
  - intros Ht Hf. unfold_process. unfold_validate. unfold bind. rewrite Hf.
    destruct (is_undefined (i_transform i)), (isFunction (i_transform i));
      simpl in *; try discriminate; reflexivity.
  - intros Ht [f Hf] Hto. unfold_process. unfold_validate. unfold bind.
    rewrite Hf, Hto.
    destruct (is_undefined (i_transform i)), (isFunction (i_transform i));
      simpl in *; try discriminate; reflexivity.
  - intros from to Ht Hf Hto. by apply validate_ok.
  - intros Ht Hf Hto. by apply validate_ok.
  - intros fuel instructions pre post st0 e Ha Ho Hn Hpre Hv.
    eapply transformData_turn_throws; eauto.
    unfold_process. unfold bind at 1. rewrite Hv. reflexivity.
Qed.

(** ** Errors of the user's functions *)

(** The way of an error thrown by one of the user's functions.  An
    error thrown by a [transform] function leaves the turn as it was
    thrown.  [combine] is called inside the [try] block of the
    extraction: its error goes through the [catch] clause, which rethrows
    a [DeepPropertyError] as [In "from": ...] and any other error as it
    is, after the line "This error should not happen.".  An error that
    leaves a turn, a nested call or the run of an array element leaves
    the enclosing call unchanged. *)
Theorem callback_errors recur opts sourceObject resultObject i e :
  (forall from to st0 v st st1 rv f h2,
      transform_ok i = true -> i_from i = Some from -> i_to i = Some to ->
      extractSource sourceObject i from st0 = Ret (true, v) st ->
      match i_instructions i with
      | Some nested => recur v nested st
      | None => Ret v st
      end = Ret rv st1 ->
      i_transform i = VFun f ->
      callFunction f [rv; resultObject; sourceObject] (st_heap st1)
        = (h2, Abrupt e) ->
      processInstruction recur opts sourceObject resultObject i st0
        = Throw e (State h2 (console st1)))
  /\ (forall paths f to extracts st h2,
      transform_ok i = true ->
      i_from i = Some (FromMulti paths (VFun f)) -> i_to i = Some to ->
      Forall2 (fun p x => extractProperty sourceObject p st = Ret x st)
              paths extracts ->
      Forall (fun x => fst x = true) extracts ->
      callFunction f (map snd extracts) (st_heap st) = (h2, Abrupt e) ->
      processInstruction recur opts sourceObject resultObject i st =
        match e with
        | DeepPropertyError message =>
            Throw (DataTransformError (wrapped "from" message) (Some i))
                  (State h2 (console st))
        | _ =>
            Throw e (State h2 (console st ++ ["This error should not happen."]))
        end)
  /\ (forall fuel instructions pre post st0 st st2,
      array_elements (st_heap st0) sourceObject = None ->
      isObject sourceObject = true ->
      normalize instructions = pre ++ i :: post ->
      let turn :=
        processInstruction
          (fun value nested => transformData fuel value nested opts)
          opts sourceObject (VRef (length (st_heap st0))) in
      for_of pre turn (started st0) = Ret tt st ->
      turn i st = Throw e st2 ->
      transformData (S fuel) sourceObject instructions opts st0 = Throw e st2)
  /\ (forall from to st0 v st nested st1,
      transform_ok i = true -> i_from i = Some from -> i_to i = Some to ->
      extractSource sourceObject i from st0 = Ret (true, v) st ->
      i_instructions i = Some nested -> recur v nested st = Throw e st1 ->
      processInstruction recur opts sourceObject resultObject i st0
        = Throw e st1)
  /\ (forall fuel instructions l pre x post st ys st1 st2,
      st_heap st !! l = Some (OArray (pre ++ x :: post)) ->
      let each := fun sourceElement =>
                    transformData fuel sourceElement instructions opts in
      steps each pre st ys st1 -> each x st1 = Throw e st2 ->
      transformData (S fuel) (VRef l) instructions opts st = Throw e st2).
Proof.
  repeat split.
  - intros from to st0 v st st1 rv f h2 Hok Hf Hto Hex Hn Ht Hc.
    rewrite (processInstruction_extracted _ _ _ _ _ _ _ _ _ _ Hok Hf Hto Hex).
    unfold_compute. unfold_call. rewrite Ht. js_unfold.
    destruct (i_instructions i); [rewrite Hn|inversion Hn; subst];
      simpl; rewrite Hc; reflexivity.
  - intros paths f to extracts st h2 Hok Hf Hto Hex Hall Hc.
    unfold_process. unfold bind at 1.
    rewrite (validate_ok i _ _ st Hok Hf Hto). simpl.
    unfold bind at 1. unfold_extractSource. unfold try_catch.
    rewrite (extractCombinedProperties_eq _ _ _ _ _ Hex).
    assert (Hb : forallb fst extracts = true).
    { rewrite forallb_forall. rewrite Forall_forall in Hall.
      intros x Hx. apply Hall. by apply list_elem_of_In. }
    rewrite Hb. simpl. unfold bind at 1. unfold_call. unfold lift_heap.
    rewrite Hc. destruct e; reflexivity.
  - intros fuel instructions pre post st0 st st2 Ha Ho Hn turn Hpre Hi.
    eapply transformData_turn_throws; eauto.
  - intros from to st0 v st nested st1 Hok Hf Hto Hex Hn Hr.
    rewrite (processInstruction_extracted _ _ _ _ _ _ _ _ _ _ Hok Hf Hto Hex).
    unfold_compute. rewrite Hn. unfold bind. rewrite Hr. reflexivity.
  - intros fuel instructions l pre x post st ys st1 st2 Hl each Hpre Hx.
    rewrite (transformData_array _ _ _ _ _ _ Hl). unfold bind.
    fold each. rewrite (array_map_throw each pre x post st ys st1 e st2 Hpre Hx).
    reflexivity.
Qed.

(** ** The diagnostic channel *)

Lemma quieter_refl st : quieter st st.
Proof. by split. Qed.

Lemma blind_ret {A} (a : A) : console_blind (ret a) (ret a).
Proof. intros s1 s2 H. by split. Qed.

Lemma blind_throw {A} e : console_blind (@throw A e) (throw e).
Proof. intros s1 s2 H. by split. Qed.

Lemma blind_bind {A B} (m1 m2 : M A) (k1 k2 : A -> M B) :
  console_blind m1 m2 -> (forall a, console_blind (k1 a) (k2 a)) ->
  console_blind (bind m1 k1) (bind m2 k2).
Proof.
  intros Hm Hk s1 s2 H. unfold bind. specialize (Hm s1 s2 H).
  destruct (m1 s1), (m2 s2); simpl in Hm; try contradiction.
  - destruct Hm as [-> Hh]. by apply Hk.
  - exact Hm.
  - exact I.
Qed.

Lemma blind_try_catch {A} (m1 m2 : M A) (h1 h2 : error -> M A) :
  console_blind m1 m2 -> (forall e, console_blind (h1 e) (h2 e)) ->
  console_blind (try_catch m1 h1) (try_catch m2 h2).
Proof.
  intros Hm Hh s1 s2 H. unfold try_catch. specialize (Hm s1 s2 H).
  destruct (m1 s1), (m2 s2); simpl in Hm; try contradiction.
  - exact Hm.
  - destruct Hm as [-> Hs]. by apply Hh.
  - exact I.
Qed.

Lemma blind_lift_heap {A} (f : list obj -> list obj * completion A) :
  console_blind (lift_heap f) (lift_heap f).
Proof.
  intros s1 s2 [H Hc]. unfold lift_heap. rewrite H.
  destruct (f (st_heap s2)) as [h [a|e]]; by repeat split.
Qed.

Lemma blind_get_heap : console_blind get_heap get_heap.
Proof. intros s1 s2 [H Hc]. by repeat split. Qed.

Lemma blind_alloc o : console_blind (alloc o) (alloc o).
Proof. intros s1 s2 [H Hc]. unfold alloc. rewrite H. by repeat split. Qed.

Lemma blind_console_warn line : console_blind (console_warn line) (ret tt).
Proof.
  intros s1 s2 [H Hc]. repeat split; simpl; [done|].
  by apply sublist_inserts_r.
Qed.

Lemma blind_console_warn_both line :
  console_blind (console_warn line) (console_warn line).
Proof.
  intros s1 s2 [H Hc]. repeat split; simpl; [done|].
  by apply sublist_app.
Qed.

Lemma blind_array_map {A B} (f1 f2 : A -> M B) xs :
  (forall x, console_blind (f1 x) (f2 x)) ->
  console_blind (array_map f1 xs) (array_map f2 xs).
Proof.
  intros Hf. induction xs as [|x xs IH]; simpl; [apply blind_ret|].
  apply blind_bind; [apply Hf|]. intros y.
  apply blind_bind; [apply IH|]. intros ys. apply blind_ret.
Qed.

Lemma blind_for_of {A} (b1 b2 : A -> M unit) xs :
  (forall x, console_blind (b1 x) (b2 x)) ->
  console_blind (for_of xs b1) (for_of xs b2).
Proof.
  intros Hf. induction xs as [|x xs IH]; simpl; [apply blind_ret|].
  apply blind_bind; [apply Hf|]. intros _. apply IH.
Qed.

Lemma blind_Object_assign target source :
  console_blind (Object_assign target source) (Object_assign target source).
Proof.
  intros s1 s2 [H Hc]. unfold Object_assign. rewrite H.
  destruct target, source; try by repeat split.
  destruct (st_heap s2 !! l) as [[]|]; try by repeat split.
  destruct (st_heap s2 !! l0); by repeat split.
Qed.

Lemma blind_call f args : console_blind (call f args) (call f args).
Proof.
  unfold_call. destruct f; try apply blind_throw. apply blind_lift_heap.
Qed.

Lemma blind_rethrow {A} field i e :
  console_blind (@rethrow A field i e) (rethrow field i e).
Proof.
  unfold_rethrow.
  destruct e; try apply blind_throw;
    (apply blind_bind; [apply blind_console_warn_both|intros _; apply blind_throw]).
Qed.

Lemma blind_extractProperty sourceObject p :
  console_blind (extractProperty sourceObject p) (extractProperty sourceObject p).
Proof.
  unfold_extractProperty. destruct p; [apply blind_lift_heap|apply blind_ret].
Qed.

Lemma blind_extractSource sourceObject i from :
  console_blind (extractSource sourceObject i from)
                (extractSource sourceObject i from).
Proof.
  unfold_extractSource. apply blind_try_catch; [|intros e; apply blind_rethrow].
  destruct from; try apply blind_extractProperty.
  unfold_extractCombined.
  apply blind_bind; [apply blind_array_map; intros x; apply blind_extractProperty|].
  intros extracts. simpl.
  destruct (negb _); [apply blind_ret|].
  destruct (truthy combine).
  - apply blind_bind; [apply blind_call|intros v; apply blind_ret].
  - apply blind_bind; [apply blind_alloc|intros v; apply blind_ret].
Qed.

Lemma blind_processInstruction recur1 recur2 sourceObject resultObject i :
  (forall v n, console_blind (recur1 v n) (recur2 v n)) ->
  console_blind
    (processInstruction recur1 (Options true) sourceObject resultObject i)
    (processInstruction recur2 (Options false) sourceObject resultObject i).
Proof.
  intros Hrec. unfold_process.
  apply blind_bind.
  { unfold_validate. destruct (negb _ && negb _); [apply blind_throw|].
    destruct (i_from i); [|apply blind_throw].
    destruct (i_to i); [apply blind_ret|apply blind_throw]. }
  intros [from to]. simpl.
  apply blind_bind; [apply blind_extractSource|]. intros [ex v].
  apply blind_bind.
  { unfold_compute. destruct ex.
    - apply blind_bind.
      + destruct (i_instructions i); [apply Hrec|apply blind_ret].
      + intros rv. destruct (truthy (i_transform i));
          [apply blind_call|apply blind_ret].
    - simpl. apply blind_bind; [apply blind_console_warn|].
      intros _. destruct (negb _); apply blind_ret. }
  intros rv. unfold_write. destruct to.
  - destruct (negb (isObject rv)); [apply blind_throw|apply blind_Object_assign].
  - apply blind_try_catch; [apply blind_lift_heap|intros e; apply blind_rethrow].
Qed.

Lemma blind_transformData fuel sourceObject instructions :
  console_blind (transformData fuel sourceObject instructions (Options true))
                (transformData fuel sourceObject instructions (Options false)).
Proof.
  revert sourceObject instructions.
  induction fuel as [|fuel IH]; intros sourceObject instructions.
  - intros s1 s2 H. exact I.
  - simpl. apply blind_bind; [apply blind_get_heap|]. intros h.
    destruct (array_elements h sourceObject).
    + apply blind_bind; [apply blind_array_map; intros x; apply IH|].
      intros rs. apply blind_alloc.
    + unfold_transformObject.
      apply blind_bind; [apply blind_get_heap|]. intros h'.
      destruct (negb (isObject sourceObject) && negb (isArray h' sourceObject));
        [apply blind_throw|].
      apply blind_bind; [apply blind_alloc|]. intros res.
      apply blind_bind; [|intros _; apply blind_ret].
      apply blind_for_of. intros i.
      apply blind_processInstruction. intros v n. apply IH.
Qed.

(** C10: [warn: true] and [warn: false] give the same result: from one
    state, [transformData] ends the same way (returns, throws, or runs out
    of recursion budget) with the same value or the same error and leaves
    the same store; the console of the run without [warn] is that of the
    run with [warn] with some lines left out.  In particular a run that
    returns without [warn] returns with it. *)
Theorem warn_is_observational fuel sourceObject instructions st :
  same_outcome
    (transformData fuel sourceObject instructions (Options true) st)
    (transformData fuel sourceObject instructions (Options false) st).
Proof. apply blind_transformData, quieter_refl. Qed.

(** ** Defaults *)

(** C2: the turn of a valid instruction writes [default] exactly when the
    extraction reports that the value does not exist (for a single path:
    when the accessor reports it); when the extraction reports that it
    exists, the extracted value is what the turn works on, also when that
    value is [undefined], and [default] is never read.  Transforming [{}]
    with [{from:'foo', to:'bar', default:'D'}] yields [{bar:'D'}];
    transforming [{foo: undefined}] with it yields [{bar: undefined}]. *)
Theorem default_exactly_when_missing
    recur opts sourceObject resultObject i from to v st :
  transform_ok i = true -> i_from i = Some from -> i_to i = Some to ->
  (forall st0,
      extractSource sourceObject i from st0 = Ret (false, v) st ->
      processInstruction recur opts sourceObject resultObject i st0
      = writeResult resultObject i to (i_default i) (warned opts from st))
  /\ (forall st0,
      extractSource sourceObject i from st0 = Ret (true, v) st ->
      i_instructions i = None -> truthy (i_transform i) = false ->
      processInstruction recur opts sourceObject resultObject i st0
      = writeResult resultObject i to v st)
  /\ (forall f t n tr d d',
      computeResultValue recur opts sourceObject resultObject
                         (Instruction f t n tr d) from (true, v) st
      = computeResultValue recur opts sourceObject resultObject
                           (Instruction f t n tr d') from (true, v) st)
  /\ (forall p exists_,
      extractDeepProperty (st_heap st) sourceObject p = Normal (exists_, v) ->
      extractSource sourceObject i (FromPath p) st = Ret (exists_, v) st)
  /\ (forall fuel,
      Example.run
        (Example.transformData (S fuel) (VRef 0)
           (Single Example.default_instruction) (Options false))
        [OObject ∅]
      = Ret (VRef 1)
            (State [OObject ∅; OObject {["bar" := VStr "D"]}] []))
  /\ (forall fuel,
      Example.run
        (Example.transformData (S fuel) (VRef 0)
           (Single Example.default_instruction) (Options false))
        [OObject {["foo" := VUndefined]}]
      = Ret (VRef 1)
            (State [OObject {["foo" := VUndefined]};
                    OObject {["bar" := VUndefined]}] [])).
Proof.
  intros Hok Hf Hto. split; [|split; [|split; [|split; [|split]]]].
  - intros st0 He.
    rewrite (processInstruction_extracted _ _ _ _ _ _ _ _ _ _ Hok Hf Hto He).
    unfold bind. rewrite computeResultValue_missing. reflexivity.
  - intros st0 He Hn Ht.
    rewrite (processInstruction_extracted _ _ _ _ _ _ _ _ _ _ Hok Hf Hto He).
    unfold bind. rewrite computeResultValue_plain by assumption. reflexivity.
  - intros. apply computeResultValue_ignores_default.
  - intros p ex He. by apply extractSource_path.
  - intros fuel. vm_compute. reflexivity.
  - intros fuel. vm_compute. reflexivity.
Qed.

(** * Further properties of the transformer *)

(** ** The source check and empty inputs *)

(** X1: a source that is not an object (a primitive, [null], [undefined]
    or a function) ends the call with the [DataTransformError] "Source
    must be an object or an array", which carries no instruction; no
    instruction is looked at, whatever the instructions are, and the
    store and the console are left as they were. *)
Theorem source_must_be_object fuel sourceObject instructions opts st :
  isObject sourceObject = false ->
  transformData (S fuel) sourceObject instructions opts st
  = Throw (DataTransformError "Source must be an object or an array" None) st.
Proof.
  intros H. destruct sourceObject; try discriminate; reflexivity.
Qed.

(** X2: an empty source array gives a new empty array and no instruction
    is looked at, so that also instructions that would fail validation
    pass unnoticed; an empty instruction list on an object gives a new
    empty object.  In both cases nothing else changes in the store and
    the console. *)
Theorem empty_inputs fuel l instructions opts st :
  (st_heap st !! l = Some (OArray []) ->
   transformData (S fuel) (VRef l) instructions opts st
   = Ret (VRef (length (st_heap st)))
         (State (st_heap st ++ [OArray []]) (console st)))
  /\ (forall fields,
      st_heap st !! l = Some (OObject fields) ->
      normalize instructions = [] ->
      transformData (S fuel) (VRef l) instructions opts st
      = Ret (VRef (length (st_heap st)))
            (State (st_heap st ++ [OObject ∅]) (console st))).
Proof.
  split.
  - intros H. rewrite (transformData_array _ _ _ _ _ _ H). reflexivity.
  - intros fields H Hn.
    rewrite transformData_object; [|by simpl; rewrite H|reflexivity].
    rewrite Hn. reflexivity.
Qed.

(** ** The result object *)

(** X3: on an object source a call that returns, returns the object it
    created when it started: a location that was not in the store before
    the call, hence never the source itself. *)
Theorem result_is_new fuel l fields instructions opts st r st' :
  st_heap st !! l = Some (OObject fields) ->
  transformData fuel (VRef l) instructions opts st = Ret r st' ->
  r = VRef (length (st_heap st))
  /\ st_heap st !! length (st_heap st) = None
  /\ r <> VRef l.
Proof.
  intros Hl H. destruct fuel as [|fuel]; [discriminate|].
  rewrite transformData_object in H; [|by simpl; rewrite Hl|reflexivity].
  unfold bind in H.
  destruct (for_of _ _ _) as [[] st1| |]; try discriminate.
  inversion H; subst. split; [reflexivity|]. split.
  - by apply lookup_ge_None_2.
  - intros [= Heq]. apply lookup_lt_Some in Hl. lia.
Qed.

(** ** All or nothing *)

Lemma for_of_ret_inv {A} (body : A -> M unit) xs st st' :
  for_of xs body st = Ret tt st' ->
  Forall (fun x => exists s s', body x s = Ret tt s') xs.
Proof.
  revert st. induction xs as [|x xs IH]; intros st H; [constructor|].
  simpl in H. unfold bind in H.
  destruct (body x st) as [[] s1| |] eqn:Hb; try discriminate.
  constructor; eauto.
Qed.

Lemma validate_ret_inv i ft st st' :
  validate i st = Ret ft st' -> valid_instruction i = true.
Proof.
  unfold valid_instruction, transform_ok. unfold_validate.
  destruct (is_undefined (i_transform i)), (isFunction (i_transform i));
    simpl; try discriminate;
    destruct (i_from i), (i_to i); simpl; try discriminate; intros _;
    reflexivity.
Qed.

Lemma processInstruction_ret_valid recur opts sourceObject resultObject i st st' :
  processInstruction recur opts sourceObject resultObject i st = Ret tt st' ->
  valid_instruction i = true.
Proof.
  unfold_process. unfold bind at 1.
  destruct (validate i st) as [ft s1| |] eqn:Hv; try discriminate.
  intros _. by eapply validate_ret_inv.
Qed.

(** X4: on a source that is not an array, a call that returns has found
    every instruction of its list valid: [transform] absent or a function,
    [from] present, [to] present.  One invalid instruction anywhere in the
    list, and the call returns nothing. *)
Theorem returned_implies_valid fuel sourceObject instructions opts st r st' :
  array_elements (st_heap st) sourceObject = None ->
  transformData fuel sourceObject instructions opts st = Ret r st' ->
  Forall (fun i => valid_instruction i = true) (normalize instructions).
Proof.
  intros Ha H. destruct fuel as [|fuel]; [discriminate|].
  destruct (isObject sourceObject) eqn:Ho.
  - rewrite transformData_object in H by assumption.
    unfold bind in H.
    destruct (for_of _ _ _) as [[] st1| |] eqn:Hf; try discriminate.
    apply for_of_ret_inv in Hf. eapply Forall_impl; [exact Hf|].
    intros i (s & s' & Hi). by eapply processInstruction_ret_valid.
  - destruct sourceObject; try discriminate; simpl in H; discriminate.
Qed.

(** ** What a returned call has written to the console *)

Lemma wow_silent {A} quiet (m : M A) :
  (forall st a st', m st = Ret a st' -> console st' = console st) ->
  writes_only_warnings quiet m.
Proof.
  intros H st a st' Hm. exists []. rewrite app_nil_r.
  split; [by eapply H|]. split; [constructor|done].
Qed.

Lemma wow_ret {A} quiet (a : A) : writes_only_warnings quiet (ret a).
Proof. apply wow_silent. by intros st b st' [= _ ->]. Qed.

Lemma wow_throw {A} quiet e : writes_only_warnings quiet (@throw A e).
Proof. apply wow_silent. intros st b st' H. discriminate. Qed.

Lemma wow_bind {A B} quiet (m : M A) (k : A -> M B) :
  writes_only_warnings quiet m ->
  (forall a, writes_only_warnings quiet (k a)) ->
  writes_only_warnings quiet (bind m k).
Proof.
  intros Hm Hk st b st' H. unfold bind in H.
  destruct (m st) as [a s1| |] eqn:E; try discriminate.
  destruct (Hm _ _ _ E) as (l1 & H1 & F1 & Q1).
  destruct (Hk _ _ _ _ H) as (l2 & H2 & F2 & Q2).
  exists (l1 ++ l2). rewrite H2, H1, app_assoc.
  split; [reflexivity|]. split; [by apply Forall_app|].
  intros q. by rewrite Q1, Q2.
Qed.

Lemma wow_rethrow {A} quiet (m : M A) field i :
  writes_only_warnings quiet m ->
  writes_only_warnings quiet (try_catch m (rethrow field i)).
Proof.
  intros Hm st a st' H. unfold try_catch in H.
  destruct (m st) as [b s1|e s1|] eqn:E; try discriminate.
  - inversion H; subst. by eapply Hm.
  - destruct e; discriminate.
Qed.

Lemma wow_lift_heap {A} quiet (f : list obj -> list obj * completion A) :
  writes_only_warnings quiet (lift_heap f).
Proof.
  apply wow_silent. intros st a st' H. unfold lift_heap in H.
  destruct (f (st_heap st)) as [h [b|e]]; inversion H; reflexivity.
Qed.

Lemma wow_alloc quiet o : writes_only_warnings quiet (alloc o).
Proof. apply wow_silent. by intros st a st' [= _ <-]. Qed.

Lemma wow_get_heap quiet : writes_only_warnings quiet get_heap.
Proof. apply wow_silent. by intros st a st' [= _ <-]. Qed.

Lemma wow_Object_assign quiet target source :
  writes_only_warnings quiet (Object_assign target source).
Proof.
  apply wow_silent. intros st a st' H. unfold Object_assign in H.
  destruct target, source; try by inversion H.
  destruct (st_heap st !! l) as [[]|]; try by inversion H.
  destruct (st_heap st !! l0); by inversion H.
Qed.

Lemma wow_array_map {A B} quiet (f : A -> M B) xs :
  (forall x, writes_only_warnings quiet (f x)) ->
  writes_only_warnings quiet (array_map f xs).
Proof.
  intros Hf. induction xs as [|x xs IH]; simpl; [apply wow_ret|].
  apply wow_bind; [apply Hf|]. intros y.
  apply wow_bind; [apply IH|]. intros ys. apply wow_ret.
Qed.

Lemma wow_for_of {A} quiet (body : A -> M unit) xs :
  (forall x, writes_only_warnings quiet (body x)) ->
  writes_only_warnings quiet (for_of xs body).
Proof.
  intros Hf. induction xs as [|x xs IH]; simpl; [apply wow_ret|].
  apply wow_bind; [apply Hf|]. intros _. apply IH.
Qed.

Lemma wow_call quiet f args : writes_only_warnings quiet (call f args).
Proof. unfold_call. destruct f; try apply wow_throw. apply wow_lift_heap. Qed.

Lemma wow_processInstruction quiet recur opts sourceObject resultObject i :
  (quiet = true -> warn opts = false) ->
  (forall v n, writes_only_warnings quiet (recur v n)) ->
  writes_only_warnings quiet
    (processInstruction recur opts sourceObject resultObject i).
Proof.
  intros Hq Hrec. unfold_process.
  apply wow_bind.
  { unfold_validate. destruct (negb _ && negb _); [apply wow_throw|].
    destruct (i_from i); [|apply wow_throw].
    destruct (i_to i); [apply wow_ret|apply wow_throw]. }
  intros [from to]. simpl.
  apply wow_bind.
  { unfold_extractSource. apply wow_rethrow.
    destruct from.
    - unfold_extractProperty. apply wow_ret.
    - unfold_extractProperty. apply wow_lift_heap.
    - unfold_extractCombined.
      apply wow_bind.
      + apply wow_array_map. intros [p|]; unfold_extractProperty;
          [apply wow_lift_heap|apply wow_ret].
      + intros extracts. simpl. destruct (negb _); [apply wow_ret|].
        destruct (truthy combine).
        * apply wow_bind; [apply wow_call|intros v; apply wow_ret].
        * apply wow_bind; [apply wow_alloc|intros v; apply wow_ret]. }
  intros [ex v]. apply wow_bind.
  { unfold_compute. destruct ex.
    - apply wow_bind.
      + destruct (i_instructions i); [apply Hrec|apply wow_ret].
      + intros rv. destruct (truthy (i_transform i));
          [apply wow_call|apply wow_ret].
    - apply wow_bind; [|intros _; destruct (negb _); apply wow_ret].
      destruct (warn opts) eqn:W; [|apply wow_ret].
      intros st a st' [= _ <-]. exists [warning from]. simpl.
      split; [reflexivity|]. split.
      + constructor; [by exists from|constructor].
      + intros Hquiet. by specialize (Hq Hquiet). }
  intros rv. unfold_write. destruct to.
  - destruct (negb (isObject rv)); [apply wow_throw|apply wow_Object_assign].
  - apply wow_rethrow, wow_lift_heap.
Qed.

Lemma wow_transformData quiet fuel sourceObject instructions opts :
  (quiet = true -> warn opts = false) ->
  writes_only_warnings quiet
    (transformData fuel sourceObject instructions opts).
Proof.
  intros Hq. revert sourceObject instructions.
  induction fuel as [|fuel IH]; intros sourceObject instructions.
  - intros st a st' H. discriminate.
  - rewrite transformData_S.
    apply wow_bind; [apply wow_get_heap|]. intros h.
    destruct (array_elements h sourceObject).
    + apply wow_bind; [apply wow_array_map; intros x; apply IH|].
      intros rs. apply wow_alloc.
    + unfold_transformObject.
      apply wow_bind; [apply wow_get_heap|]. intros h'.
      destruct (negb (isObject sourceObject) && negb (isArray h' sourceObject));
        [apply wow_throw|].
      apply wow_bind; [apply wow_alloc|]. intros res.
      apply wow_bind; [|intros _; apply wow_ret].
      apply wow_for_of. intros i.
      apply wow_processInstruction; [exact Hq|]. intros v n. apply IH.
Qed.

(** X5: a call that returns has added to the console nothing but lines
    written by [warn] ("Value does not exist at: ..."), and with
    [warn: false] nothing at all: the line "This error should not
    happen." is only ever followed by a throw.  The function made by
    [transformDataFactory], called without options, is the call with
    [warn: false] and so is silent when it returns. *)
Theorem returned_call_is_quiet fuel sourceObject instructions opts st r st' :
  transformData fuel sourceObject instructions opts st = Ret r st' ->
  (exists lines,
      console st' = console st ++ lines /\ Forall is_warning lines)
  /\ (warn opts = false -> console st' = console st)
  /\ (forall r0 st0,
      transformDataFactory extractDeepProperty setDeepProperty callFunction
        instructions fuel sourceObject None st = Ret r0 st0 ->
      console st0 = console st).
Proof.
  intros H. split; [|split].
  - destruct (wow_transformData false _ _ _ opts ltac:(discriminate) _ _ _ H)
      as (lines & Hc & Hw & _).
    eauto.
  - intros Hwarn.
    destruct (wow_transformData true _ _ _ opts (fun _ => Hwarn) _ _ _ H)
      as (lines & Hc & _ & Hq).
    rewrite Hc, Hq; [by rewrite app_nil_r|reflexivity].
  - intros r0 st0 H0. unfold transformDataFactory in H0. simpl in H0.
    destruct (wow_transformData true _ _ _ (Options false) (fun _ => eq_refl)
                _ _ _ H0) as (l0 & Hc0 & _ & Hq0).
    rewrite Hc0, Hq0; [by rewrite app_nil_r|reflexivity].
Qed.

(** ** The instruction an error carries *)

Lemma rw_never {A} P (m : M A) :
  (forall st message carried st',
      m st <> Throw (DataTransformError message carried) st') ->
  raises_within P m.
Proof. intros H st message carried st' Hm. by destruct (H _ _ _ _ Hm). Qed.

Lemma rw_ret {A} P (a : A) : raises_within P (ret a).
Proof. apply rw_never. discriminate. Qed.

Lemma rw_throw {A} (P : string -> option instruction -> Prop) message carried :
  P message carried ->
  raises_within P (@throw A (DataTransformError message carried)).
Proof. intros H st m c st' [= <- <- _]. exact H. Qed.

Lemma rw_bind {A B} P (m : M A) (k : A -> M B) :
  raises_within P m -> (forall a, raises_within P (k a)) ->
  raises_within P (bind m k).
Proof.
  intros Hm Hk st message carried st' H. unfold bind in H.
  destruct (m st) as [a s1|e s1|] eqn:E; try discriminate.
  - by eapply Hk.
  - inversion H; subst. by eapply Hm.
Qed.

Lemma rw_rethrow {A} (P : string -> option instruction -> Prop)
    (m : M A) field i :
  raises_within P m ->
  (forall message, P (wrapped field message) (Some i)) ->
  raises_within P (try_catch m (rethrow field i)).
Proof.
  intros Hm Hw st message carried st' H. unfold try_catch in H.
  destruct (m st) as [a s1|e s1|] eqn:E; try discriminate.
  destruct e; try discriminate.
  - inversion H; subst. by eapply Hm.
  - inversion H; subst. apply Hw.
Qed.

Lemma rw_array_map {A B} P (f : A -> M B) xs :
  (forall x, raises_within P (f x)) -> raises_within P (array_map f xs).
Proof.
  intros Hf. induction xs as [|x xs IH]; simpl; [apply rw_ret|].
  apply rw_bind; [apply Hf|]. intros y.
  apply rw_bind; [apply IH|]. intros ys. apply rw_ret.
Qed.

Lemma rw_for_of {A} P (body : A -> M unit) xs :
  (forall x, In x xs -> raises_within P (body x)) ->
  raises_within P (for_of xs body).
Proof.
  induction xs as [|x xs IH]; intros Hf; simpl; [apply rw_ret|].
  apply rw_bind; [apply Hf; by left|]. intros _.
  apply IH. intros y Hy. apply Hf. by right.
Qed.

Lemma rw_Object_assign P target source :
  raises_within P (Object_assign target source).
Proof.
  apply rw_never. intros st message carried st'. unfold Object_assign.
  destruct target, source; try discriminate.
  destruct (st_heap st !! l) as [[]|]; try discriminate.
  destruct (st_heap st !! l0); discriminate.
Qed.

Section Provenance.

(** Neither the accessor nor the user's functions throw a
    [DataTransformError] of their own. *)
Hypothesis extract_clean : forall h v p message carried,
  extractDeepProperty h v p <> Abrupt (DataTransformError message carried).
Hypothesis set_clean : forall h v p x h' message carried,
  setDeepProperty h v p x <> (h', Abrupt (DataTransformError message carried)).
Hypothesis call_clean : forall f args h h' message carried,
  callFunction f args h <> (h', Abrupt (DataTransformError message carried)).

Lemma rw_call P f args : raises_within P (call f args).
Proof.
  apply rw_never. intros st message carried st'. unfold_call.
  destruct f; try discriminate. unfold lift_heap.
  destruct (callFunction f args (st_heap st)) as [h [a|e]] eqn:E;
    try discriminate.
  intros [= -> _]. by eapply call_clean.
Qed.

Lemma rw_extractProperty P sourceObject p :
  raises_within P (extractProperty sourceObject p).
Proof.
  apply rw_never. intros st message carried st'. unfold_extractProperty.
  destruct p as [p|]; try discriminate. unfold lift_read, lift_heap.
  destruct (extractDeepProperty (st_heap st) sourceObject p) as [a|e] eqn:E;
    try discriminate.
  intros [= -> _]. by eapply extract_clean.
Qed.

Lemma rw_processInstruction recur opts sourceObject resultObject i instructions :
  In i (normalize instructions) ->
  (forall v n, i_instructions i = Some n ->
               raises_within (provenance n) (recur v n)) ->
  raises_within (provenance instructions)
    (processInstruction recur opts sourceObject resultObject i).
Proof.
  intros Hin Hrec.
  assert (Hi : forall message, provenance instructions message (Some i)).
  { intros message. right. exists i. split; [reflexivity|].
    by apply inside_here. }
  unfold_process. apply rw_bind.
  { unfold_validate. destruct (negb _ && negb _); [by apply rw_throw|].
    destruct (i_from i); [|by apply rw_throw].
    destruct (i_to i); [apply rw_ret|by apply rw_throw]. }
  intros [from to]. simpl. apply rw_bind.
  { unfold_extractSource. apply rw_rethrow; [|intros m; apply Hi].
    destruct from; try apply rw_extractProperty.
    unfold_extractCombined. apply rw_bind.
    - apply rw_array_map. intros p. apply rw_extractProperty.
    - intros extracts. simpl. destruct (negb _); [apply rw_ret|].
      destruct (truthy combine).
      + apply rw_bind; [apply rw_call|intros v; apply rw_ret].
      + apply rw_bind; [|intros v; apply rw_ret].
        apply rw_never. discriminate. }
  intros [ex v]. apply rw_bind.
  { unfold_compute. destruct ex.
    - apply rw_bind.
      + destruct (i_instructions i) as [n|] eqn:Hn; [|apply rw_ret].
        intros st message carried st' H.
        destruct (Hrec v n eq_refl _ _ _ _ H) as [Hsrc|(j & -> & Hj)];
          [by left|].
        right. exists j. split; [reflexivity|].
        by eapply inside_nested.
      + intros rv. destruct (truthy (i_transform i));
          [apply rw_call|apply rw_ret].
    - apply rw_bind; [|intros _; destruct (negb _); apply rw_ret].
      destruct (warn opts); [|apply rw_ret]. apply rw_never. discriminate. }
  intros rv. unfold_write. destruct to.
  - destruct (negb (isObject rv)); [by apply rw_throw|apply rw_Object_assign].
  - apply rw_rethrow; [|intros m; apply Hi].
    apply rw_never. intros st message carried st'. unfold lift_heap.
    destruct (setDeepProperty (st_heap st) resultObject p rv) as [h [a|e]] eqn:E;
      try discriminate.
    intros [= -> _]. by eapply set_clean.
Qed.

Lemma rw_transformData fuel sourceObject instructions opts :
  raises_within (provenance instructions)
    (transformData fuel sourceObject instructions opts).
Proof.
  revert sourceObject instructions.
  induction fuel as [|fuel IH]; intros sourceObject instructions.
  - apply rw_never. discriminate.
  - rewrite transformData_S.
    apply rw_bind; [apply rw_never; discriminate|]. intros h.
    destruct (array_elements h sourceObject).
    + apply rw_bind; [apply rw_array_map; intros x; apply IH|].
      intros rs. apply rw_never. discriminate.
    + unfold_transformObject.
      apply rw_bind; [apply rw_never; discriminate|]. intros h'.
      destruct (negb (isObject sourceObject) && negb (isArray h' sourceObject)).
      { apply rw_throw. by left. }
      apply rw_bind; [apply rw_never; discriminate|]. intros res.
      apply rw_bind; [|intros _; apply rw_ret].
      apply rw_for_of. intros i Hi.
      apply rw_processInstruction; [exact Hi|]. intros v n _. apply IH.
Qed.

(** X6: as long as neither the accessor nor the user's functions throw a
    [DataTransformError] of their own, every [DataTransformError] that
    leaves a call either is the source check's ("Source must be an object
    or an array", carrying no instruction; also from a nested call on an
    extracted value that is not an object) or carries one of the
    instructions that were passed, at the top or nested at any depth. *)
Theorem errors_carry_a_passed_instruction
    fuel sourceObject instructions opts st message carried st' :
  transformData fuel sourceObject instructions opts st
  = Throw (DataTransformError message carried) st' ->
  (carried = None /\ message = "Source must be an object or an array")
  \/ (exists i, carried = Some i /\ inside i instructions).
Proof. apply rw_transformData. Qed.

End Provenance.

(** ** What a call leaves of the store it found *)

Lemma prefix_insert_beyond (h0 h : list obj) l o :
  h0 `prefix_of` h -> length h0 <= l -> h0 `prefix_of` <[l := o]> h.
Proof.
  intros [k ->] Hl. rewrite insert_app_r_alt by exact Hl.
  by apply prefix_app_r.
Qed.

Lemma keeps_weaken {A} h0 (Q R : A -> Prop) (m : M A) :
  keeps h0 Q m -> (forall a, Q a -> R a) -> keeps h0 R m.
Proof.
  intros Hm HQ st Hp. specialize (Hm st Hp).
  destruct (m st); try done. destruct Hm. split; auto.
Qed.

Lemma keeps_ret {A} h0 (Q : A -> Prop) (a : A) : Q a -> keeps h0 Q (ret a).
Proof. intros Ha st Hp. by split. Qed.

Lemma keeps_throw {A} h0 (Q : A -> Prop) e : keeps h0 Q (@throw A e).
Proof. intros st Hp. exact Hp. Qed.

Lemma keeps_bind {A B} h0 (Q : A -> Prop) (R : B -> Prop)
    (m : M A) (k : A -> M B) :
  keeps h0 Q m -> (forall a, Q a -> keeps h0 R (k a)) ->
  keeps h0 R (bind m k).
Proof.
  intros Hm Hk st Hp. unfold bind. specialize (Hm st Hp).
  destruct (m st) as [a s1|e s1|]; try done.
  destruct Hm as [Hp1 Ha]. by apply Hk.
Qed.

Lemma keeps_rethrow {A} h0 (Q : A -> Prop) (m : M A) field i :
  keeps h0 Q m -> keeps h0 Q (try_catch m (rethrow field i)).
Proof.
  intros Hm st Hp. unfold try_catch. specialize (Hm st Hp).
  destruct (m st) as [a s1|e s1|]; try done.
  destruct e; exact Hm.
Qed.

Lemma keeps_get_heap h0 : keeps h0 (fun _ => True) get_heap.
Proof. intros st Hp. by split. Qed.

Lemma keeps_alloc h0 o : keeps h0 (beyond h0) (alloc o).
Proof.
  intros st Hp. split; simpl.
  - by apply prefix_app_r.
  - exists (length (st_heap st)). split; [reflexivity|].
    by apply prefix_length.
Qed.

Lemma keeps_console_warn h0 line : keeps h0 (fun _ => True) (console_warn line).
Proof. intros st Hp. by split. Qed.

Lemma keeps_Object_assign h0 target source :
  beyond h0 target -> keeps h0 (fun _ => True) (Object_assign target source).
Proof.
  intros (lt & -> & Hl) st Hp. unfold Object_assign.
  destruct source; try by split.
  destruct (st_heap st !! lt) as [[]|]; try by split.
  destruct (st_heap st !! l); try by split.
  split; [|done]. simpl. by apply prefix_insert_beyond.
Qed.

Lemma keeps_array_map {A B} h0 (f : A -> M B) xs :
  (forall x, keeps h0 (fun _ => True) (f x)) ->
  keeps h0 (fun _ => True) (array_map f xs).
Proof.
  intros Hf. induction xs as [|x xs IH]; simpl; [by apply keeps_ret|].
  eapply keeps_bind; [apply Hf|]. intros y _.
  eapply keeps_bind; [apply IH|]. intros ys _. by apply keeps_ret.
Qed.

Lemma keeps_for_of {A} h0 (body : A -> M unit) xs :
  (forall x, In x xs -> keeps h0 (fun _ => True) (body x)) ->
  keeps h0 (fun _ => True) (for_of xs body).
Proof.
  induction xs as [|x xs IH]; intros Hf; simpl; [by apply keeps_ret|].
  eapply keeps_bind; [apply Hf; by left|]. intros _ _.
  apply IH. intros y Hy. apply Hf. by right.
Qed.

Lemma keeps_extractProperty h0 sourceObject p :
  keeps h0 (fun _ => True) (extractProperty sourceObject p).
Proof.
  intros st Hp. unfold_extractProperty. destruct p as [p|]; [|by split].
  unfold lift_read, lift_heap.
  destruct (extractDeepProperty (st_heap st) sourceObject p); by try split.
Qed.

Lemma validate_to i from to st st' :
  validate i st = Ret (from, to) st' -> i_to i = Some to.
Proof.
  unfold_validate. destruct (negb _ && negb _); [discriminate|].
  destruct (i_from i); [|discriminate].
  destruct (i_to i); [|discriminate]. by intros [= _ -> _].
Qed.

Lemma validate_state i st :
  match validate i st with
  | Ret _ st' | Throw _ st' => st' = st
  | OutOfFuel => True
  end.
Proof.
  unfold_validate. destruct (negb _ && negb _); [reflexivity|].
  destruct (i_from i); [|reflexivity]. by destruct (i_to i).
Qed.

Lemma every_to_path ok i p :
  every_to ok i = true -> i_to i = Some (ToPath p) -> ok p = true.
Proof.
  destruct i as [f t n tr d]. simpl. intros H ->.
  by apply andb_true_iff in H as [H _].
Qed.

Lemma every_to_nested ok i nested :
  every_to ok i = true -> i_instructions i = Some nested ->
  every_to_of ok nested = true.
Proof.
  destruct i as [f t n tr d]. simpl. intros H ->.
  apply andb_true_iff in H as [_ H]. unfold every_to_of.
  destruct nested; simpl; [by rewrite H|exact H].
Qed.

Section Frame.

(** The [to] paths that [setDeepProperty] resolves inside the object it
    is given: it then leaves every other object of the store alone.  The
    user's functions are pure: they may create objects and change none. *)
Variable ok : path -> bool.
Hypothesis set_local : forall h0 h l p v,
  ok p = true -> h0 `prefix_of` h -> length h0 <= l ->
  h0 `prefix_of` (setDeepProperty h (VRef l) p v).1.
Hypothesis call_pure : forall f args h,
  h `prefix_of` (callFunction f args h).1.

Lemma keeps_call h0 f args : keeps h0 (fun _ => True) (call f args).
Proof.
  intros st Hp. unfold_call. destruct f; try exact Hp. unfold lift_heap.
  pose proof (call_pure f args (st_heap st)) as Hc.
  destruct (callFunction f args (st_heap st)) as [h [a|e]]; simpl in *;
    [split; [|done]|]; by etrans.
Qed.

Lemma keeps_processInstruction h0 recur opts sourceObject resultObject i :
  every_to ok i = true ->
  beyond h0 resultObject ->
  (forall v n, i_instructions i = Some n ->
               keeps h0 (fun _ => True) (recur v n)) ->
  keeps h0 (fun _ => True)
    (processInstruction recur opts sourceObject resultObject i).
Proof.
  intros Hok Hres Hrec. unfold_process.
  eapply keeps_bind with (Q := fun ft => i_to i = Some (snd ft)).
  { intros st Hp. pose proof (validate_state i st) as Hs.
    destruct (validate i st) as [[from to] s1|e s1|] eqn:Hv; subst; try done.
    split; [exact Hp|]. by eapply validate_to. }
  intros [from to] Hto. simpl in *.
  eapply keeps_bind with (Q := fun _ => True).
  { unfold_extractSource. apply keeps_rethrow.
    destruct from; try apply keeps_extractProperty.
    unfold_extractCombined.
    eapply keeps_bind; [apply keeps_array_map; intros p;
                        apply keeps_extractProperty|].
    intros extracts _. simpl. destruct (negb _); [by apply keeps_ret|].
    destruct (truthy combine).
    - eapply keeps_bind; [apply keeps_call|]. intros v _. by apply keeps_ret.
    - eapply keeps_bind; [apply keeps_alloc|]. intros v _. by apply keeps_ret. }
  intros [ex v] _.
  eapply keeps_bind with (Q := fun _ => True).
  { unfold_compute. destruct ex.
    - eapply keeps_bind with (Q := fun _ => True).
      + destruct (i_instructions i) as [n|] eqn:Hn;
          [by apply Hrec|by apply keeps_ret].
      + intros rv _. destruct (truthy (i_transform i));
          [apply keeps_call|by apply keeps_ret].
    - eapply keeps_bind with (Q := fun _ => True).
      + destruct (warn opts); [apply keeps_console_warn|by apply keeps_ret].
      + intros _ _. destruct (negb _); by apply keeps_ret. }
  intros rv _. unfold_write. destruct to as [|p].
  - destruct (negb (isObject rv));
      [apply keeps_throw|by apply keeps_Object_assign].
  - apply keeps_rethrow. destruct Hres as (lt & -> & Hl).
    intros st Hp. unfold lift_heap.
    pose proof (set_local h0 (st_heap st) lt p rv
                  (every_to_path _ _ _ Hok Hto) Hp Hl) as Hs.
    destruct (setDeepProperty (st_heap st) (VRef lt) p rv) as [h [a|e]];
      simpl in *; [by split|exact Hs].
Qed.

Lemma keeps_transformData h0 fuel sourceObject instructions opts :
  every_to_of ok instructions = true ->
  keeps h0 (fun _ => True)
    (transformData fuel sourceObject instructions opts).
Proof.
  revert sourceObject instructions.
  induction fuel as [|fuel IH]; intros sourceObject instructions Hok.
  - intros st Hp. exact I.
  - rewrite transformData_S.
    eapply keeps_bind; [apply keeps_get_heap|]. intros h _.
    destruct (array_elements h sourceObject).
    + eapply keeps_bind; [apply keeps_array_map; intros x; by apply IH|].
      intros rs _. eapply keeps_weaken; [apply keeps_alloc|done].
    + unfold_transformObject.
      eapply keeps_bind; [apply keeps_get_heap|]. intros h' _.
      destruct (negb (isObject sourceObject) && negb (isArray h' sourceObject));
        [apply keeps_throw|].
      eapply keeps_bind; [apply keeps_alloc|]. intros res Hres.
      eapply keeps_bind; [|intros _ _; by apply keeps_ret].
      apply keeps_for_of. intros i Hi.
      unfold every_to_of in Hok. rewrite forallb_forall in Hok.
      apply keeps_processInstruction; [by apply Hok|exact Hres|].
      intros v n Hn. apply IH. eapply every_to_nested; [|exact Hn].
      by apply Hok.
Qed.

(** X7: when every [to] of the instructions (nested ones included) is
    [null] or a path that [setDeepProperty] resolves inside the object it
    is given, and the user's functions change no existing object, a call
    leaves every object that was in the store before it where it was and
    as it was, whether it returns or throws: the source and everything
    reachable from it are not mutated.  The call only creates objects
    and writes to those. *)
Theorem source_kept_by_local_targets
    fuel sourceObject instructions opts st :
  every_to_of ok instructions = true ->
  forall st',
    (exists r, transformData fuel sourceObject instructions opts st = Ret r st')
    \/ (exists e,
          transformData fuel sourceObject instructions opts st = Throw e st') ->
    st_heap st `prefix_of` st_heap st'
    /\ forall l o, st_heap st !! l = Some o -> st_heap st' !! l = Some o.
Proof.
  intros Hok st' H.
  pose proof (keeps_transformData (st_heap st) fuel sourceObject instructions
                opts Hok st (reflexivity _)) as Hk.
  assert (Hp : st_heap st `prefix_of` st_heap st').
  { destruct H as [[r H]|[e H]]; rewrite H in Hk; [by destruct Hk|exact Hk]. }
  split; [exact Hp|]. intros l o Hl. by eapply prefix_lookup_Some.
Qed.

End Frame.

(** ** Multi-source extraction does not stop at a missing sub-path *)

(** X8: [extractCombinedProperties] extracts every sub-path before it
    looks at what exists: when the extraction of a sub-path throws, after
    the earlier sub-paths were extracted (existing or missing), the
    combined extraction throws that error, and the turn ends in the
    [catch] clause of the extraction; an earlier missing sub-path does
    not turn this into "does not exist", and [default] is not used. *)
Theorem later_subpath_error_wins
    recur opts sourceObject resultObject i pre p post combine extracts st e to :
  Forall2 (fun q x => extractProperty sourceObject q st = Ret x st)
          pre extracts ->
  extractProperty sourceObject p st = Throw e st ->
  extractCombinedProperties sourceObject (pre ++ p :: post) combine st
  = Throw e st
  /\ (transform_ok i = true ->
      i_from i = Some (FromMulti (pre ++ p :: post) combine) ->
      i_to i = Some to ->
      processInstruction recur opts sourceObject resultObject i st
      = rethrow "from" i e st).
Proof.
  intros Hpre Hp.
  assert (H : extractCombinedProperties sourceObject (pre ++ p :: post)
                combine st = Throw e st).
  { unfold_extractCombined. unfold bind at 1.
    rewrite (array_map_throw _ pre p post st extracts st e st
               (extracts_steps _ _ _ _ Hpre) Hp).
    reflexivity. }
  split; [exact H|]. intros Hok Hf Hto. unfold_process.
  unfold bind at 1. rewrite (validate_ok i _ _ st Hok Hf Hto). simpl.
  unfold bind at 1. unfold_extractSource. unfold try_catch. rewrite H.
  destruct e; reflexivity.
Qed.

(** ** [to: null] with a missing extraction *)

(** X9: a valid instruction with [to: null] whose extraction does not
    exist merges its [default]: without a default, or with one that is not
    an object, the turn ends with "Cannot assign properties from a
    non-object" (after the [warn] line, if asked for); with an object as
    default, the properties of the default are assigned to the result. *)
Theorem merge_of_missing_needs_object_default
    recur opts sourceObject resultObject i from v st0 st :
  transform_ok i = true -> i_from i = Some from -> i_to i = Some ToNull ->
  extractSource sourceObject i from st0 = Ret (false, v) st ->
  (isObject (i_default i) = false ->
   processInstruction recur opts sourceObject resultObject i st0
   = Throw (DataTransformError "Cannot assign properties from a non-object"
              (Some i))
           (warned opts from st))
  /\ (forall lt ld tf o,
      resultObject = VRef lt -> i_default i = VRef ld ->
      st_heap st !! lt = Some (OObject tf) -> st_heap st !! ld = Some o ->
      processInstruction recur opts sourceObject resultObject i st0
      = Ret tt (State (<[lt := OObject (own_properties o ∪ tf)]> (st_heap st))
                      (console (warned opts from st)))).
Proof.
  intros Hok Hf Hto Hex.
  rewrite (processInstruction_extracted _ _ _ _ _ _ _ _ _ _ Hok Hf Hto Hex).
  unfold bind. rewrite computeResultValue_missing. split.
  - intros Hd. unfold_write. rewrite Hd. reflexivity.
  - intros lt ld tf o -> Hd Ht Ho. unfold_write. rewrite Hd. simpl.
    unfold Object_assign. simpl. rewrite Ht, Ho. reflexivity.
Qed.

(** ** Instructions without nested instructions *)

Lemma ends_ret {A} (a : A) : ends (ret a).
Proof. intros st. discriminate. Qed.

Lemma ends_throw {A} e : ends (@throw A e).
Proof. intros st. discriminate. Qed.

Lemma ends_bind {A B} (m : M A) (k : A -> M B) :
  ends m -> (forall a, ends (k a)) -> ends (bind m k).
Proof.
  intros Hm Hk st. unfold bind. specialize (Hm st).
  destruct (m st); [apply Hk|discriminate|done].
Qed.

Lemma ends_rethrow {A} (m : M A) field i :
  ends m -> ends (try_catch m (rethrow field i)).
Proof.
  intros Hm st. unfold try_catch. specialize (Hm st).
  destruct (m st) as [a s|e s|]; [discriminate| |done].
  destruct e; discriminate.
Qed.

Lemma ends_lift_heap {A} (f : list obj -> list obj * completion A) :
  ends (lift_heap f).
Proof.
  intros st. unfold lift_heap.
  destruct (f (st_heap st)) as [h [a|e]]; discriminate.
Qed.

Lemma ends_Object_assign target source : ends (Object_assign target source).
Proof.
  intros st. unfold Object_assign.
  destruct target, source; try discriminate.
  destruct (st_heap st !! l) as [[]|]; try discriminate.
  destruct (st_heap st !! l0); discriminate.
Qed.

Lemma ends_array_map {A B} (f : A -> M B) xs :
  (forall x, ends (f x)) -> ends (array_map f xs).
Proof.
  intros Hf. induction xs as [|x xs IH]; simpl; [apply ends_ret|].
  apply ends_bind; [apply Hf|]. intros y.
  apply ends_bind; [apply IH|]. intros ys. apply ends_ret.
Qed.

Lemma ends_for_of {A} (body : A -> M unit) xs :
  (forall x, In x xs -> ends (body x)) -> ends (for_of xs body).
Proof.
  induction xs as [|x xs IH]; intros Hf; simpl; [apply ends_ret|].
  apply ends_bind; [apply Hf; by left|]. intros _.
  apply IH. intros y Hy. apply Hf. by right.
Qed.

Lemma ends_call f args : ends (call f args).
Proof. unfold_call. destruct f; try apply ends_throw. apply ends_lift_heap. Qed.

Lemma ends_extractProperty sourceObject p : ends (extractProperty sourceObject p).
Proof.
  unfold_extractProperty. destruct p; [apply ends_lift_heap|apply ends_ret].
Qed.

Lemma ends_processInstruction_flat recur opts sourceObject resultObject i :
  i_instructions i = None ->
  ends (processInstruction recur opts sourceObject resultObject i).
Proof.
  intros Hn. unfold_process. apply ends_bind.
  { unfold_validate. destruct (negb _ && negb _); [apply ends_throw|].
    destruct (i_from i); [|apply ends_throw].
    destruct (i_to i); [apply ends_ret|apply ends_throw]. }
  intros [from to]. simpl. apply ends_bind.
  { unfold_extractSource. apply ends_rethrow.
    destruct from; try apply ends_extractProperty.
    unfold_extractCombined. apply ends_bind.
    - apply ends_array_map. intros p. apply ends_extractProperty.
    - intros extracts. simpl. destruct (negb _); [apply ends_ret|].
      destruct (truthy combine).
      + apply ends_bind; [apply ends_call|intros v; apply ends_ret].
      + apply ends_bind; [discriminate|intros v; apply ends_ret]. }
  intros [ex v]. apply ends_bind.
  { unfold_compute. rewrite Hn. destruct ex.
    - apply ends_bind; [apply ends_ret|]. intros rv.
      destruct (truthy (i_transform i)); [apply ends_call|apply ends_ret].
    - apply ends_bind; [|intros _; destruct (negb _); apply ends_ret].
      destruct (warn opts); [discriminate|apply ends_ret]. }
  intros rv. unfold_write. destruct to.
  - destruct (negb (isObject rv)); [apply ends_throw|apply ends_Object_assign].
  - apply ends_rethrow, ends_lift_heap.
Qed.

Lemma computeResultValue_flat
    recur1 recur2 opts sourceObject resultObject i from extract st :
  i_instructions i = None ->
  computeResultValue recur1 opts sourceObject resultObject i from extract st
  = computeResultValue recur2 opts sourceObject resultObject i from extract st.
Proof. intros Hn. unfold_compute. rewrite Hn. reflexivity. Qed.

Lemma processInstruction_flat recur1 recur2 opts sourceObject resultObject i st :
  i_instructions i = None ->
  processInstruction recur1 opts sourceObject resultObject i st
  = processInstruction recur2 opts sourceObject resultObject i st.
Proof.
  intros Hn. unfold_process. unfold bind.
  destruct (validate i st) as [[from to] s1| |]; try reflexivity. simpl.
  destruct (extractSource sourceObject i from s1) as [ex s2| |];
    try reflexivity.
  by rewrite (computeResultValue_flat recur1 recur2).
Qed.

Lemma for_of_ext {A} (b1 b2 : A -> M unit) xs st :
  (forall x s, In x xs -> b1 x s = b2 x s) ->
  for_of xs b1 st = for_of xs b2 st.
Proof.
  revert st. induction xs as [|x xs IH]; intros st H; [reflexivity|].
  simpl. unfold bind. rewrite (H x st) by (by left).
  destruct (b2 x st); try reflexivity.
  apply IH. intros y s Hy. apply H. by right.
Qed.

Lemma flat_In instructions i :
  flat instructions -> In i (normalize instructions) ->
  i_instructions i = None.
Proof.
  unfold flat. rewrite Forall_forall. intros H Hi. apply H.
  by apply list_elem_of_In.
Qed.

Lemma ends_transformObject_flat recur sourceObject instructions opts :
  flat instructions ->
  ends (transformObject recur sourceObject instructions opts).
Proof.
  intros Hflat. unfold_transformObject.
  apply ends_bind; [discriminate|]. intros h.
  destruct (negb _ && negb _); [apply ends_throw|].
  apply ends_bind; [discriminate|]. intros res.
  apply ends_bind; [|intros _; apply ends_ret].
  apply ends_for_of. intros i Hi.
  apply ends_processInstruction_flat. by eapply flat_In.
Qed.

Lemma transformObject_flat recur1 recur2 sourceObject instructions opts st :
  flat instructions ->
  transformObject recur1 sourceObject instructions opts st
  = transformObject recur2 sourceObject instructions opts st.
Proof.
  intros Hflat. unfold_transformObject. unfold bind, get_heap, alloc.
  destruct (negb _ && negb _); [reflexivity|].
  rewrite (for_of_ext
             (processInstruction recur1 opts sourceObject
                                 (VRef (length (st_heap st))))
             (processInstruction recur2 opts sourceObject
                                 (VRef (length (st_heap st))))).
  - reflexivity.
  - intros i s Hi. apply processInstruction_flat. by eapply flat_In.
Qed.

(** X10: on a source that is not an array, instructions none of which has
    nested instructions make no recursive call: the call ends (returns or
    throws) within the first level of the recursion, and any recursion
    budget gives the same result. *)
Theorem flat_call_does_not_recurse fuel sourceObject instructions opts st :
  array_elements (st_heap st) sourceObject = None ->
  flat instructions ->
  transformData 1 sourceObject instructions opts st <> OutOfFuel
  /\ transformData (S fuel) sourceObject instructions opts st
     = transformData 1 sourceObject instructions opts st.
Proof.
  intros Ha Hflat. split.
  - rewrite transformData_S. unfold bind at 1. unfold get_heap. rewrite Ha.
    by apply ends_transformObject_flat.
  - rewrite !transformData_S. unfold bind at 1 3. unfold get_heap.
    rewrite Ha. by apply transformObject_flat.
Qed.

(** ** [stringifyPath] *)

Lemma string_app_assoc (a b c : string) : (a +:+ b) +:+ c = a +:+ b +:+ c.
Proof.
  induction a as [|x a IH]; [reflexivity|].
  change (String x ((a +:+ b) +:+ c) = String x (a +:+ b +:+ c)).
  by rewrite IH.
Qed.

Lemma split_nonempty sep s : split sep s <> [].
Proof.
  destruct s as [|c s]; simpl; [discriminate|].
  destruct (Ascii.eqb c sep); [discriminate|].
  destruct (split sep s); discriminate.
Qed.

Lemma split_app_sep sep a b :
  split sep (a +:+ String sep b) = split sep a ++ split sep b.
Proof.
  induction a as [|c a IH]; simpl.
  - by rewrite Ascii.eqb_refl.
  - rewrite IH. destruct (Ascii.eqb c sep); [reflexivity|].
    pose proof (split_nonempty sep a) as Hne.
    destruct (split sep a) as [|w ws]; [done|reflexivity].
Qed.

Lemma join_app sep xs ys :
  xs <> [] -> ys <> [] ->
  join sep (xs ++ ys) = join sep xs +:+ sep +:+ join sep ys.
Proof.
  intros Hx Hy. induction xs as [|x xs IH]; [done|].
  destruct xs as [|x' xs].
  - simpl. destruct ys; [done|reflexivity].
  - change (join sep ((x :: x' :: xs) ++ ys))
      with (x +:+ sep +:+ join sep ((x' :: xs) ++ ys)).
    rewrite IH by discriminate.
    change (join sep (x :: x' :: xs)) with (x +:+ sep +:+ join sep (x' :: xs)).
    by rewrite !string_app_assoc.
Qed.

Lemma split_dotless s : dotless s -> split "."%char s = [s].
Proof.
  induction s as [|c s IH]; intros H; [reflexivity|]. simpl.
  destruct (Ascii.eqb c ".") eqn:E.
  - apply Ascii.eqb_eq in E. destruct (H c); [by left|exact E].
  - rewrite IH; [reflexivity|]. intros d Hd. apply H. by right.
Qed.

(** X11: [stringifyPath] prints a dot path with every dot replaced by
    [" => "]: the print of [a.b] is the print of [a], [" => "], the print
    of [b]; a path without dots prints as itself; and a dot path prints
    as the segment array of its pieces does. *)
Theorem stringifyPath_replaces_dots :
  (forall a b,
      stringifyPath_path (PDot (a +:+ "." +:+ b))
      = stringifyPath_path (PDot a) +:+ " => " +:+ stringifyPath_path (PDot b))
  /\ (forall s, dotless s -> stringifyPath_path (PDot s) = s)
  /\ (forall s,
      stringifyPath_path (PDot s)
      = stringifyPath_path (PSegs (map SegStr (split "."%char s)))).
Proof.
  split; [|split].
  - intros a b. simpl.
    change ("." +:+ b) with (String "."%char b).
    rewrite split_app_sep. apply join_app; apply split_nonempty.
  - intros s H. simpl. by rewrite split_dotless.
  - intros s. simpl. f_equal. rewrite map_map. simpl.
    by rewrite map_id.
Qed.

(** ** Two merges in a row *)

(** X12: two [to: null] writes into the result, one after the other (two
    turns of the loop): the result ends with the properties of the second
    value, then those of the first, then the ones it had; on a key they
    share the later write wins. *)
Theorem later_merge_wins lt la lb tf oa ob i1 i2 st :
  lt <> lb ->
  st_heap st !! lt = Some (OObject tf) ->
  st_heap st !! la = Some oa ->
  st_heap st !! lb = Some ob ->
  let merged := own_properties ob ∪ (own_properties oa ∪ tf) in
  (writeResult (VRef lt) i1 ToNull (VRef la) ;;;
   writeResult (VRef lt) i2 ToNull (VRef lb)) st
  = Ret tt (State (<[lt := OObject merged]> (st_heap st)) (console st))
  /\ forall key,
      merged !! key =
        match own_properties ob !! key with
        | Some x => Some x
        | None =>
            match own_properties oa !! key with
            | Some x => Some x
            | None => tf !! key
            end
        end.
Proof.
  intros Hne Ht Ha Hb merged. split.
  - unfold_write. simpl. unfold bind, Object_assign. simpl.
    rewrite Ht, Ha. simpl.
    rewrite list_lookup_insert_eq by (by eapply lookup_lt_Some).
    rewrite list_lookup_insert_ne by exact Hne. rewrite Hb.
    by rewrite list_insert_insert_eq.
  - intros key. unfold merged. rewrite !lookup_union.
    destruct (own_properties ob !! key), (own_properties oa !! key),
      (tf !! key); reflexivity.
Qed.

End Facts.

(** * The repository's tests, run on the embedding *)

Module RepositoryTests.

(** "transforms objects". *)
Example transforms_objects :
  returned
    (Example.run_test (VRef 0)
       (Many [Example.path_instruction "firstName" "name";
              Example.path_instruction "lastName" "surname";
              Example.path_instruction "address.streetName" "street";
              Example.path_instruction "address.country.code" "countryCode"])
       Example.person) id
  = Example.expect [OObject {["name" := VStr "John"; "surname" := VStr "Doe";
                      "street" := VStr "Tanglewood Drive";
                      "countryCode" := VStr "CA"]}] (VRef 0).
Proof. vm_compute. reflexivity. Qed.

(** "transforms arrays". *)
Example transforms_arrays :
  returned
    (Example.run_test (VRef 0)
       (Many [Example.path_instruction "nickname" "petName";
              Example.path_instruction "details.breed" "breedName"])
       [OArray [VRef 1; VRef 3];
        OObject {["nickname" := VStr "Charlie"; "details" := VRef 2]};
        OObject {["breed" := VStr "terrier"]};
        OObject {["nickname" := VStr "Rosie"; "details" := VRef 4]};
        OObject {["breed" := VStr "pitbull"]}]) id
  = Example.expect [OArray [VRef 1; VRef 2];
            OObject {["petName" := VStr "Charlie"; "breedName" := VStr "terrier"]};
            OObject {["petName" := VStr "Rosie"; "breedName" := VStr "pitbull"]}]
           (VRef 0).
Proof. vm_compute. reflexivity. Qed.

(** "accepts an object as instructions". *)
Example accepts_a_single_instruction :
  returned
    (Example.run_test (VRef 0) (Single (Example.path_instruction "name" "firstName"))
       [OObject {["name" := VStr "Amanda"]}]) id
  = Example.expect [OObject {["firstName" := VStr "Amanda"]}] (VRef 0).
Proof. vm_compute. reflexivity. Qed.

(** "applies nested instructions". *)
Example applies_nested_instructions :
  returned
    (Example.run_test (VRef 0)
       (Many [Example.path_instruction "firstName" "name";
              Instruction (Some (FromPath (PDot "address")))
                (Some (ToPath (PDot "addressData")))
                (Some (Many [Example.path_instruction "streetName" "street";
                             Example.path_instruction "country.code" "countryCode"]))
                VUndefined VUndefined])
       Example.person) id
  = Example.expect [OObject {["name" := VStr "John"; "addressData" := VRef 1]};
            OObject {["street" := VStr "Tanglewood Drive";
                      "countryCode" := VStr "CA"]}] (VRef 0).
Proof. vm_compute. reflexivity. Qed.

(** "uses entire source as local source if from:null". *)
Example root_access :
  returned
    (Example.run_test (VRef 0)
       (Many [Instruction (Some FromNull) (Some (ToPath (PDot "copy")))
                          None VUndefined VUndefined])
       Example.person) id
  = Example.expect (Example.person ++ [OObject {["copy" := VRef 0]}]) (VRef 3).
Proof. vm_compute. reflexivity. Qed.

(** "assigns properties from nested instructions if to:null". *)
Example assigns_with_to_null :
  returned
    (Example.run_test (VRef 0)
       (Many [Instruction (Some (FromPath (PDot "favorites"))) (Some ToNull)
                (Some (Single (Example.path_instruction "food" "favoriteFood")))
                VUndefined VUndefined])
       [OObject {["favorites" := VRef 1]}; OObject {["food" := VStr "Pizza"]}]) id
  = Example.expect [OObject {["favoriteFood" := VStr "Pizza"]}] (VRef 0).
Proof. vm_compute. reflexivity. Qed.

(** "transforms values", with [(str) => str + str]. *)
Example transforms_values :
  returned
    (Example.run_test (VRef 0)
       (Single (Instruction (Some (FromPath (PDot "foo")))
                  (Some (ToPath (PDot "baz"))) None (VFun 3) VUndefined))
       [OObject {["foo" := VStr "bar"]}]) id
  = Example.expect [OObject {["baz" := VStr "barbar"]}] (VRef 0).
Proof. vm_compute. reflexivity. Qed.

(** "extracts multiple values". *)
Example extracts_multiple_values :
  returned
    (Example.run_test (VRef 0)
       (Single (Instruction
                  (Some (FromMulti [Some (PDot "firstName");
                                    Some (PDot "lastName");
                                    Some (PDot "details.maidenName")]
                                   VUndefined))
                  (Some (ToPath (PDot "allNames"))) None VUndefined VUndefined))
       Example.jane) id
  = Example.expect [OObject {["allNames" := VRef 1]};
            OArray [VStr "Jane"; VStr "Doe"; VStr "Smith"]] (VRef 0).
Proof. vm_compute. reflexivity. Qed.

(** "and uses the default value if one of them is not set". *)
Example multiple_values_default :
  returned
    (Example.run_test (VRef 0)
       (Single (Instruction
                  (Some (FromMulti [Some (PDot "firstName");
                                    Some (PDot "lastName");
                                    Some (PDot "details.maidenNames")]
                                   (VFun 0)))
                  (Some (ToPath (PDot "fullName"))) None VUndefined
                  (VStr "I do not know her name")))
       Example.jane) id
  = Example.expect [OObject {["fullName" := VStr "I do not know her name"]}] (VRef 0).
Proof. vm_compute. reflexivity. Qed.

(** "throws error if a path contains illegal values". *)
Example illegal_paths :
  let from_bad := Instruction (Some (FromPath (PSegs [SegNull])))
                    (Some (ToPath (PDot "prop"))) None VUndefined VUndefined in
  let to_bad := Instruction (Some (FromPath (PDot "prop")))
                  (Some (ToPath (PSegs [SegNull]))) None VUndefined VUndefined in
  let multi_bad := Instruction (Some (FromMulti [Some (PSegs [SegNull])] VUndefined))
                     (Some (ToPath (PDot "prop"))) None VUndefined VUndefined in
  thrown (Example.run_test (VRef 0) (Single from_bad) [OObject ∅])
  = Some (DataTransformError
            (wrapped "from" "Path contains an illegal segment") (Some from_bad))
  /\ thrown (Example.run_test (VRef 0) (Single to_bad) [OObject ∅])
     = Some (DataTransformError
               (wrapped "to" "Path contains an illegal segment") (Some to_bad))
  /\ thrown (Example.run_test (VRef 0) (Single multi_bad) [OObject ∅])
     = Some (DataTransformError
               (wrapped "from" "Path contains an illegal segment")
               (Some multi_bad)).
Proof. repeat split; vm_compute; reflexivity. Qed.

(** "throws an error on a to:null assignment if the result value is not
    an object", "... if the transform property is not a function", "... if
    an instruction does not contain a from or to path", "... if source is
    not an object or array". *)
Example error_handling :
  let merge := Instruction (Some (FromPath (PDot "prop"))) (Some ToNull)
                 None VUndefined VUndefined in
  let not_a_function :=
    Instruction (Some (FromPath (PDot "prop"))) (Some (ToPath (PDot "newProp")))
      None (VStr "not a function") VUndefined in
  let no_to := Instruction (Some (FromPath (PDot "prop"))) None
                 None VUndefined VUndefined in
  let no_from := Instruction None (Some (ToPath (PDot "prop")))
                   None VUndefined VUndefined in
  thrown (Example.run_test (VRef 0) (Single merge) [OObject ∅])
  = Some (DataTransformError "Cannot assign properties from a non-object"
            (Some merge))
  /\ thrown (Example.run_test (VRef 0) (Single not_a_function) [OObject ∅])
     = Some (DataTransformError "Transform is not a function"
               (Some not_a_function))
  /\ thrown (Example.run_test (VRef 0) (Single no_to) [OObject ∅])
     = Some (DataTransformError (missing "to") (Some no_to))
  /\ thrown (Example.run_test (VRef 0) (Single no_from) [OObject ∅])
     = Some (DataTransformError (missing "from") (Some no_from))
  /\ thrown (Example.run_test (VStr "") (Many []) [])
     = Some (DataTransformError "Source must be an object or an array" None).
Proof. repeat split; vm_compute; reflexivity. Qed.

(** "returns a new function that performs the transformation". *)
Example factory_equals_direct_call :
  let instructions :=
    Many [Example.path_instruction "firstName" "name";
          Example.path_instruction "address.country.code" "countryCode"] in
  transformDataFactory Accessor.extractDeepProperty Accessor.setDeepProperty
    Example.callFunction instructions 4 (VRef 0) None (State Example.person [])
  = Example.run_test (VRef 0) instructions Example.person.
Proof. reflexivity. Qed.

(** Array elements are reached by their index, as a number or as a
    string segment; an index past the end does not exist. *)
Example array_index_paths :
  let h := [OObject {["items" := VRef 1]};
            OArray [VRef 2; VRef 3];
            OObject {["name" := VStr "Surround Speakers"]};
            OObject {["name" := VStr "Blue Carpet"]}] in
  Accessor.extractDeepProperty h (VRef 0) (PDot "items.1.name")
  = Normal (true, VStr "Blue Carpet")
  /\ Accessor.extractDeepProperty h (VRef 0)
       (PSegs [SegStr "items"; SegNum 0; SegStr "name"])
     = Normal (true, VStr "Surround Speakers")
  /\ Accessor.extractDeepProperty h (VRef 0) (PDot "items.2.name")
     = Normal (false, VUndefined)
  /\ Accessor.extractDeepProperty h (VRef 0) (PDot "items.01.name")
     = Normal (false, VUndefined).
Proof. repeat split; vm_compute; reflexivity. Qed.

(** The line [warn] writes, for a path and for a multi-source
    descriptor with a [null] sub-path. *)
Example warning_lines :
  warning (FromPath (PDot "address.country.name")) =
    "Value does not exist at: address => country => name"
  /\ warning (FromPath (PSegs [SegStr "items"; SegNum 0; SegNull])) =
       "Value does not exist at: items => 0 => "
  /\ warning (FromMulti [Some (PDot "a.b"); None; Some (PSegs [SegStr "c"])]
                        VUndefined) =
       "Value does not exist at: [a => b],[undefined],[c]".
Proof. repeat split; vm_compute; reflexivity. Qed.

End RepositoryTests.

(** * Closed instances *)

(** ** The aliasing of the result with the source *)

(** C6: the source [{a: {b: 1}}] transformed with [[{from: 'a', to: 'x'},
    {from: 'a.b', to: 'x.c'}]] (no function involved).  The first turn
    stores the source's own object [a] under [x] of the result; the second
    sets [x.c], entering that object: after the call the source is
    [{a: {b: 1, c: 1}}]. *)
Theorem source_mutated_through_alias :
  let after :=
    [OObject {["a" := VRef 1]};
     OObject (<["c" := VNum 1]> {["b" := VNum 1]});
     OObject {["x" := VRef 1]}] in
  Example.run
    (Example.transformData 1 (VRef 0) Example.alias_instructions (Options false))
    Example.alias_heap
  = Ret (VRef 2) (State after [])
  /\ snapshot 3 Example.alias_heap (VRef 0)
     = TObject [("a", TObject [("b", TPrim (VNum 1))])]
  /\ snapshot 3 after (VRef 0)
     = TObject [("a", TObject [("c", TPrim (VNum 1)); ("b", TPrim (VNum 1))])]
  /\ snapshot 3 after (VRef 0) <> snapshot 3 Example.alias_heap (VRef 0).
Proof.
  repeat split; try (vm_compute; reflexivity).
  vm_compute. discriminate.
Qed.

(** ** Counterexamples *)

(** Against C5 as stated: [{from: {paths: [null]}, to: null}] on [{}]
    produces the array [[source]], a sequence; the call does not fail, the
    array is merged under its index key. *)
Lemma merge_accepts_array :
  let run :=
    Example.run
      (Example.transformData 1 (VRef 0)
         (Single Example.merge_array_instruction) (Options false))
      [OObject ∅] in
  run = Ret (VRef 1)
            (State [OObject ∅; OObject {["0" := VRef 0]}; OArray [VRef 0]] [])
  /\ isArray [OObject ∅; OObject ∅; OArray [VRef 0]] (VRef 2) = true
  /\ ~ (exists e st', run = Throw e st').
Proof.
  repeat split; try (vm_compute; reflexivity).
  intros (e & st' & H). vm_compute in H. discriminate.
Qed.

(** Against C1 as stated: [{from: {paths: ['zz', [null]]}, to: 'x',
    default: 'D'}] on [{}].  The sub-path ['zz'] is missing, yet the
    instruction is not treated as non-existent: every sub-path is
    extracted before the results are combined, the accessor fails on
    [[null]], and the call ends with the error [In "from": ...] instead of
    a result holding the default. *)
Lemma missing_subpath_beside_failing_one :
  let paths := [Some (PDot "zz"); Some (PSegs [SegNull])] in
  let i := Instruction (Some (FromMulti paths VUndefined))
                       (Some (ToPath (PDot "x"))) None VUndefined
                       (VStr "D") in
  let st := State [OObject ∅; OObject ∅] [] in
  let run :=
    Example.run
      (Example.transformData 1 (VRef 0) (Single i) (Options false))
      [OObject ∅] in
  extractProperty Accessor.extractDeepProperty (VRef 0) (Some (PDot "zz")) st
  = Ret (false, VUndefined) st
  /\ run = Throw (DataTransformError
                    (wrapped "from" "Path contains an illegal segment")
                    (Some i)) st
  /\ ~ (exists v st', run = Ret v st').
Proof.
  repeat split; try (vm_compute; reflexivity).
  intros (v & st' & H). vm_compute in H. discriminate.
Qed.

(** ** Errors of the user's functions *)

(** C8: [{from: {paths: [null], combine}, to: 'x'}] on [{}], with a
    [combine] that throws a [DeepPropertyError] "boom".  [combine] is
    called inside the [try] block of the extraction, so the caller
    receives the [DataTransformError] [In "from": boom], not the error
    thrown.  The same function given as [transform], which is called
    outside any [try], has its error reach the caller as thrown. *)
Lemma combine_path_error_is_wrapped :
  let run :=
    Example.run
      (Example.transformData 1 (VRef 0)
         (Single Example.combine_throws_instruction) (Options false))
      [OObject ∅] in
  let as_transform :=
    Instruction (Some FromNull) (Some (ToPath (PDot "x"))) None (VFun 1)
                VUndefined in
  Example.callFunction 1 [VRef 0] [OObject ∅; OObject ∅]
  = ([OObject ∅; OObject ∅], Abrupt (DeepPropertyError "boom"))
  /\ run = Throw (DataTransformError (wrapped "from" "boom")
                    (Some Example.combine_throws_instruction))
                 (State [OObject ∅; OObject ∅] [])
  /\ ~ (exists st', run = Throw (DeepPropertyError "boom") st')
  /\ Example.run
       (Example.transformData 1 (VRef 0) (Single as_transform)
          (Options false)) [OObject ∅]
     = Throw (DeepPropertyError "boom") (State [OObject ∅; OObject ∅] []).
Proof.
  repeat split; try (vm_compute; reflexivity).
  intros (st' & H). vm_compute in H. discriminate.
Qed.

(** ** Two faults in one instruction *)

(** [{to: 'x', transform: 's'}] has no [from] and a [transform] that is
    not a function; of the two errors the call reports the one of the
    [transform]. *)
Lemma transform_check_precedes_from :
  let run :=
    Example.run
      (Example.transformData 1 (VRef 0)
         (Single Example.two_faults_instruction) (Options false))
      [OObject ∅] in
  i_from Example.two_faults_instruction = None
  /\ run = Throw (DataTransformError "Transform is not a function"
                    (Some Example.two_faults_instruction))
                 (State [OObject ∅; OObject ∅] [])
  /\ ~ (exists st', run = Throw (DataTransformError (missing "from")
                                   (Some Example.two_faults_instruction)) st').
Proof.
  repeat split; try (vm_compute; reflexivity).
  intros (st' & H). vm_compute in H. discriminate.
Qed.

(** ** Instances of the theorems *)

Lemma multi_source_all_or_nothing_witness :
  let st := State (Example.jane ++ [OObject ∅]) [] in
  let paths := [Some (PDot "firstName"); Some (PDot "details.maidenName")] in
  let extracts := [(true, VStr "Jane"); (true, VStr "Smith")] in
  let i := Instruction (Some (FromMulti paths (VFun 3)))
                       (Some (ToPath (PDot "name"))) None VUndefined
                       (VStr "D") in
  Forall2 (fun p e =>
             extractProperty Accessor.extractDeepProperty (VRef 0) p st
             = Ret e st) paths extracts
  /\ Forall (fun e => fst e = true) extracts
  /\ extractSource Accessor.extractDeepProperty Example.callFunction
       (VRef 0) i (FromMulti paths (VFun 3)) st
     = Ret (true, VStr "JaneJane") st
  /\ processInstruction Accessor.extractDeepProperty Accessor.setDeepProperty
       Example.callFunction (fun _ _ => ret VUndefined) (Options false)
       (VRef 0) (VRef 2) i st
     = Ret tt (State (Example.jane ++ [OObject {["name" := VStr "JaneJane"]}])
                     []).
Proof.
  intros st paths extracts i.
  assert (H : Forall2 (fun p e =>
                         extractProperty Accessor.extractDeepProperty
                                         (VRef 0) p st = Ret e st)
                      paths extracts)
    by (repeat constructor).
  assert (Hall : Forall (fun e => fst e = true) extracts)
    by (repeat constructor).
  split; [exact H|]. split; [exact Hall|].
  pose proof (multi_source_all_or_nothing
                Accessor.extractDeepProperty Accessor.setDeepProperty
                Example.callFunction (VRef 0) (VRef 2) paths (VFun 3)
                extracts st (fun _ _ => ret VUndefined) (Options false)
                i H) as T.
  cbv zeta in T. destruct T as (_ & _ & Te & _ & Tt). split.
  - rewrite (Te Hall 3 eq_refl). vm_compute. reflexivity.
  - destruct (Tt (ToPath (PDot "name")) eq_refl eq_refl eq_refl)
      as (_ & Tc & _).
    rewrite (Tc Hall 3 eq_refl). vm_compute. reflexivity.
Defined.

Lemma default_exactly_when_missing_witness :
  let i := Example.default_instruction in
  let st := State [OObject ∅; OObject ∅] [] in
  transform_ok i = true
  /\ i_from i = Some (FromPath (PDot "foo"))
  /\ i_to i = Some (ToPath (PDot "bar"))
  /\ extractSource Accessor.extractDeepProperty Example.callFunction
       (VRef 0) i (FromPath (PDot "foo")) st = Ret (false, VUndefined) st
  /\ processInstruction Accessor.extractDeepProperty Accessor.setDeepProperty
       Example.callFunction (fun _ _ => ret VUndefined) (Options true)
       (VRef 0) (VRef 1) i st
     = Ret tt (State [OObject ∅; OObject {["bar" := VStr "D"]}]
                     ["Value does not exist at: foo"]).
Proof.
  intros i st.
  assert (Hok : transform_ok i = true) by reflexivity.
  assert (Hf : i_from i = Some (FromPath (PDot "foo"))) by reflexivity.
  assert (Ht : i_to i = Some (ToPath (PDot "bar"))) by reflexivity.
  assert (He : extractSource Accessor.extractDeepProperty Example.callFunction
                 (VRef 0) i (FromPath (PDot "foo")) st
               = Ret (false, VUndefined) st) by reflexivity.
  repeat (split; [assumption|]).
  rewrite (proj1 (default_exactly_when_missing
                    Accessor.extractDeepProperty Accessor.setDeepProperty
                    Example.callFunction (fun _ _ => ret VUndefined)
                    (Options true) (VRef 0) (VRef 1) i (FromPath (PDot "foo"))
                    (ToPath (PDot "bar")) VUndefined st Hok Hf Ht) st He).
  vm_compute. reflexivity.
Defined.



Lemma merge_requires_object_witness :
  let st := State [OObject {["k" := VNum 1]}; OObject {["k" := VNum 2]}] [] in
  isObject (VStr "s") = false
  /\ writeResult Accessor.setDeepProperty (VRef 0)
       Example.merge_array_instruction ToNull (VStr "s") st
     = Throw (DataTransformError "Cannot assign properties from a non-object"
                (Some Example.merge_array_instruction)) st
  /\ writeResult Accessor.setDeepProperty (VRef 0)
       Example.merge_array_instruction ToNull (VRef 1) st
     = Ret tt (State [OObject {["k" := VNum 2]}; OObject {["k" := VNum 2]}] []).
Proof.
  intros st.
  assert (H : isObject (VStr "s") = false) by reflexivity.
  split; [exact H|]. split.
  - exact (proj1 (proj2 (merge_requires_object Accessor.setDeepProperty
                           (VRef 0) Example.merge_array_instruction
                           (VStr "s") st)) H).
  - destruct (proj1 (proj2 (proj2
               (merge_requires_object Accessor.setDeepProperty (VRef 0)
                  Example.merge_array_instruction (VRef 1) st)))
               0 1 {["k" := VNum 1]} (OObject {["k" := VNum 2]})
               eq_refl eq_refl eq_refl eq_refl) as [T _].
    rewrite T. vm_compute. reflexivity.
Defined.

Lemma quiet_callbacks :
  callbacks_throw_no_path_error Example.quiet_callFunction.
Proof.
  intros f args h h' message.
  destruct f as [|[|[|[|f]]]]; simpl; try discriminate.
  destruct (args !! 0) as [[]|]; discriminate.
Defined.

Lemma path_errors_are_wrapped_witness :
  let i := Example.default_instruction in
  let st := State [OObject ∅; OObject ∅] [] in
  let message := "Path contains an illegal segment" in
  Accessor.extractDeepProperty (st_heap st) (VRef 0) (PSegs [SegNull])
  = Abrupt (DeepPropertyError message)
  /\ extractSource Accessor.extractDeepProperty Example.quiet_callFunction
       (VRef 0) i (FromPath (PSegs [SegNull])) st
     = Throw (DataTransformError (wrapped "from" message) (Some i)) st
  /\ Accessor.setDeepProperty (st_heap st) (VRef 1) (PSegs [SegNull]) VNull
     = (st_heap st, Abrupt (DeepPropertyError message))
  /\ writeResult Accessor.setDeepProperty (VRef 1) i
       (ToPath (PSegs [SegNull])) VNull st
     = Throw (DataTransformError (wrapped "to" message) (Some i)) st
  /\ callbacks_throw_no_path_error Example.quiet_callFunction
  /\ (forall fuel source instructions opts st0 st',
        transformData Accessor.extractDeepProperty Accessor.setDeepProperty
          Example.quiet_callFunction fuel source instructions opts st0
        <> Throw (DeepPropertyError message) st').
Proof.
  intros i st message.
  pose proof (path_errors_are_wrapped
                Accessor.extractDeepProperty Accessor.setDeepProperty
                Example.quiet_callFunction (VRef 0) (VRef 1) i st message)
    as (T1 & _ & T3 & _ & _ & T4).
  assert (H1 : Accessor.extractDeepProperty (st_heap st) (VRef 0)
                 (PSegs [SegNull]) = Abrupt (DeepPropertyError message))
    by reflexivity.
  assert (H3 : Accessor.setDeepProperty (st_heap st) (VRef 1)
                 (PSegs [SegNull]) VNull
               = (st_heap st, Abrupt (DeepPropertyError message)))
    by reflexivity.
  split; [exact H1|]. split; [exact (T1 _ H1)|].
  split; [exact H3|]. split; [exact (T3 _ _ _ H3)|].
  split; [exact quiet_callbacks|]. exact (T4 quiet_callbacks).
Defined.

Lemma validation_order_witness :
  let i := Instruction None (Some ToNull) None VUndefined VUndefined in
  let st0 := State [OObject ∅] [] in
  let st := State [OObject ∅; OObject ∅] [] in
  let e := DataTransformError (missing "from") (Some i) in
  transform_ok i = true
  /\ i_from i = None
  /\ processInstruction Accessor.extractDeepProperty Accessor.setDeepProperty
       Example.callFunction (fun _ _ => ret VUndefined) (Options false)
       (VRef 0) (VRef 1) i st
     = Throw e st
  /\ Example.transformData 1 (VRef 0) (Single i) (Options false) st0
     = Throw e st.
Proof.
  intros i st0 st e.
  assert (Hok : transform_ok i = true) by reflexivity.
  assert (Hf : i_from i = None) by reflexivity.
  split; [exact Hok|]. split; [exact Hf|]. split.
  - exact (proj1 (proj2 (validation_order
                           Accessor.extractDeepProperty
                           Accessor.setDeepProperty
                           Example.callFunction (fun _ _ => ret VUndefined)
                           (Options false) (VRef 0) (VRef 1) i st)) Hok Hf).
  - assert (Ha : array_elements (st_heap st0) (VRef 0) = None)
      by reflexivity.
    assert (Ho : isObject (VRef 0) = true) by reflexivity.
    assert (Hn : normalize (Single i) = [] ++ i :: []) by reflexivity.
    assert (Hv : validate i st = Throw e st) by reflexivity.
    exact (proj2 (proj2 (proj2 (proj2 (proj2
             (validation_order
                Accessor.extractDeepProperty Accessor.setDeepProperty
                Example.callFunction (fun _ _ => ret VUndefined)
                (Options false) (VRef 0) (VRef 1) i st)))))
             0 (Single i) [] [] st0 e Ha Ho Hn eq_refl Hv).
Defined.

Lemma callback_errors_witness :
  let i := Example.transform_throws_instruction in
  let st := State (Example.alias_heap ++ [OObject ∅]) [] in
  let e := OtherError "user error" in
  transform_ok i = true
  /\ extractSource Accessor.extractDeepProperty Example.callFunction
       (VRef 0) i (FromPath (PDot "a")) st = Ret (true, VRef 1) st
  /\ Example.callFunction 2 [VRef 1; VRef 2; VRef 0] (st_heap st)
     = (st_heap st, Abrupt e)
  /\ processInstruction Accessor.extractDeepProperty Accessor.setDeepProperty
       Example.callFunction (fun _ _ => ret VUndefined) (Options false)
       (VRef 0) (VRef 2) i st
     = Throw e st.
Proof.
  intros i st e.
  assert (Hok : transform_ok i = true) by reflexivity.
  assert (Hex : extractSource Accessor.extractDeepProperty Example.callFunction
                  (VRef 0) i (FromPath (PDot "a")) st = Ret (true, VRef 1) st)
    by reflexivity.
  assert (Hc : Example.callFunction 2 [VRef 1; VRef 2; VRef 0] (st_heap st)
               = (st_heap st, Abrupt e)) by reflexivity.
  split; [exact Hok|]. split; [exact Hex|]. split; [exact Hc|].
  exact (proj1 (callback_errors
                  Accessor.extractDeepProperty Accessor.setDeepProperty
                  Example.callFunction (fun _ _ => ret VUndefined)
                  (Options false) (VRef 0) (VRef 2) i e)
               (FromPath (PDot "a")) (ToPath (PDot "x")) st (VRef 1) st st
               (VRef 1) 2 (st_heap st) Hok eq_refl eq_refl Hex eq_refl
               eq_refl Hc).
Defined.

(** ** Instances of the further properties *)

Lemma accessor_extract_clean h v p message carried :
  Accessor.extractDeepProperty h v p
  <> Abrupt (DataTransformError message carried).
Proof.
  unfold Accessor.extractDeepProperty, Accessor.path_keys.
  destruct p as [s|l].
  - destruct (existsb _ _); discriminate.
  - destruct (existsb Accessor.is_SegNull l); [discriminate|].
    destruct (_ || _); discriminate.
Defined.

Lemma accessor_set_clean h v p x h' message carried :
  Accessor.setDeepProperty h v p x
  <> (h', Abrupt (DataTransformError message carried)).
Proof.
  unfold Accessor.setDeepProperty, Accessor.path_keys.
  destruct p as [s|l].
  - destruct (existsb _ _); [discriminate|]. destruct v; discriminate.
  - destruct (existsb Accessor.is_SegNull l); [discriminate|].
    destruct (_ || _); [discriminate|]. destruct v; discriminate.
Defined.

Lemma example_call_clean f args h h' message carried :
  Example.callFunction f args h
  <> (h', Abrupt (DataTransformError message carried)).
Proof.
  destruct f as [|[|[|[|f]]]]; simpl; try discriminate.
  destruct (args !! 0) as [[]|]; discriminate.
Defined.

Lemma example_call_pure f args h :
  h `prefix_of` (Example.callFunction f args h).1.
Proof.
  destruct f as [|[|[|[|f]]]]; simpl; try reflexivity.
  destruct (args !! 0) as [[]|]; reflexivity.
Defined.

Lemma accessor_set_property_local (h0 h : list obj) l key v :
  h0 `prefix_of` h -> length h0 <= l ->
  h0 `prefix_of` Accessor.set_property h l key v.
Proof.
  intros Hp Hl. unfold Accessor.set_property.
  destruct (h !! l) as [[fields|elems]|]; [| |exact Hp].
  - by apply prefix_insert_beyond.
  - destruct (Accessor.array_index key) as [i|]; [|exact Hp].
    destruct (decide (i < length elems)); by apply prefix_insert_beyond.
Defined.

Lemma accessor_set_local h0 h l p v :
  single_key p = true -> h0 `prefix_of` h -> length h0 <= l ->
  h0 `prefix_of` (Accessor.setDeepProperty h (VRef l) p v).1.
Proof.
  unfold single_key, Accessor.setDeepProperty. intros Hk Hp Hl.
  destruct (Accessor.path_keys p) as [keys|e]; [|exact Hp].
  destruct keys as [|key [|key' keys]]; try discriminate. simpl.
  by apply accessor_set_property_local.
Defined.

Lemma source_must_be_object_witness :
  isObject (VStr "") = false
  /\ Example.transformData 1 (VStr "") (Single Example.two_faults_instruction)
       (Options true) (State [] [])
     = Throw (DataTransformError "Source must be an object or an array" None)
             (State [] []).
Proof.
  assert (H : isObject (VStr "") = false) by reflexivity.
  split; [exact H|].
  exact (source_must_be_object Accessor.extractDeepProperty
           Accessor.setDeepProperty Example.callFunction 0 (VStr "")
           (Single Example.two_faults_instruction) (Options true)
           (State [] []) H).
Defined.

Lemma empty_inputs_witness :
  let st := State [OArray []] [] in
  st_heap st !! 0 = Some (OArray [])
  /\ Example.transformData 1 (VRef 0) (Single Example.two_faults_instruction)
       (Options false) st
     = Ret (VRef 1) (State [OArray []; OArray []] []).
Proof.
  intros st.
  assert (H : st_heap st !! 0 = Some (OArray [])) by reflexivity.
  split; [exact H|].
  exact (proj1 (empty_inputs Accessor.extractDeepProperty
                  Accessor.setDeepProperty Example.callFunction 0 0
                  (Single Example.two_faults_instruction) (Options false) st)
               H).
Defined.

Lemma result_is_new_witness :
  let st := State Example.alias_heap [] in
  let st' :=
    State [OObject {["a" := VRef 1]};
           OObject (<["c" := VNum 1]> {["b" := VNum 1]});
           OObject {["x" := VRef 1]}] [] in
  st_heap st !! 0 = Some (OObject {["a" := VRef 1]})
  /\ Example.transformData 1 (VRef 0) Example.alias_instructions
       (Options false) st = Ret (VRef 2) st'
  /\ VRef 2 = VRef (length (st_heap st))
  /\ VRef 2 <> VRef 0.
Proof.
  intros st st'.
  assert (Hl : st_heap st !! 0 = Some (OObject {["a" := VRef 1]}))
    by reflexivity.
  assert (Hrun : Example.transformData 1 (VRef 0) Example.alias_instructions
                   (Options false) st = Ret (VRef 2) st')
    by (vm_compute; reflexivity).
  destruct (result_is_new Accessor.extractDeepProperty
              Accessor.setDeepProperty Example.callFunction 1 0 _
              Example.alias_instructions (Options false) st (VRef 2) st'
              Hl Hrun)
    as (Heq & _ & Hne).
  split; [exact Hl|]. split; [exact Hrun|]. split; [exact Heq|exact Hne].
Defined.

Lemma returned_implies_valid_witness :
  let st := State Example.alias_heap [] in
  let st' :=
    State [OObject {["a" := VRef 1]};
           OObject (<["c" := VNum 1]> {["b" := VNum 1]});
           OObject {["x" := VRef 1]}] [] in
  array_elements (st_heap st) (VRef 0) = None
  /\ Example.transformData 1 (VRef 0) Example.alias_instructions
       (Options false) st = Ret (VRef 2) st'
  /\ Forall (fun i => valid_instruction i = true)
            (normalize Example.alias_instructions).
Proof.
  intros st st'.
  assert (Ha : array_elements (st_heap st) (VRef 0) = None) by reflexivity.
  assert (Hrun : Example.transformData 1 (VRef 0) Example.alias_instructions
                   (Options false) st = Ret (VRef 2) st')
    by (vm_compute; reflexivity).
  split; [exact Ha|]. split; [exact Hrun|].
  exact (returned_implies_valid Accessor.extractDeepProperty
           Accessor.setDeepProperty Example.callFunction 1 (VRef 0)
           Example.alias_instructions (Options false) st (VRef 2) st' Ha Hrun).
Defined.

Lemma returned_call_is_quiet_witness :
  let st := State [OObject ∅] ["earlier line"] in
  let st' := State [OObject ∅; OObject {["bar" := VStr "D"]}]
                   ["earlier line"] in
  Example.transformData 1 (VRef 0) (Single Example.default_instruction)
    (Options false) st = Ret (VRef 1) st'
  /\ console st' = console st.
Proof.
  intros st st'.
  assert (Hrun : Example.transformData 1 (VRef 0)
                   (Single Example.default_instruction) (Options false) st
                 = Ret (VRef 1) st')
    by (vm_compute; reflexivity).
  split; [exact Hrun|].
  exact (proj1 (proj2 (returned_call_is_quiet Accessor.extractDeepProperty
                         Accessor.setDeepProperty Example.callFunction 1
                         (VRef 0) (Single Example.default_instruction)
                         (Options false) st (VRef 1) st' Hrun)) eq_refl).
Defined.

Lemma errors_carry_a_passed_instruction_witness :
  let nested := Single Example.two_faults_instruction in
  let outer := Instruction (Some FromNull) (Some (ToPath (PDot "x")))
                 (Some nested) VUndefined VUndefined in
  let run := Example.transformData 2 (VRef 0) (Many [outer]) (Options false)
               (State [OObject ∅] []) in
  thrown run = Some (DataTransformError "Transform is not a function"
                       (Some Example.two_faults_instruction))
  /\ inside Example.two_faults_instruction (Many [outer]).
Proof.
  intros nested outer run.
  assert (Ht : thrown run = Some (DataTransformError
                                    "Transform is not a function"
                                    (Some Example.two_faults_instruction)))
    by (vm_compute; reflexivity).
  split; [exact Ht|].
  destruct run as [r st'|e st'|] eqn:Hrun; try discriminate.
  simpl in Ht. injection Ht as ->.
  destruct (errors_carry_a_passed_instruction Accessor.extractDeepProperty
              Accessor.setDeepProperty Example.callFunction
              accessor_extract_clean accessor_set_clean example_call_clean
              2 (VRef 0) (Many [outer]) (Options false)
              (State [OObject ∅] []) _ _ st' Hrun)
    as [[Hnone _]|(i & Hi & Hin)]; [discriminate|].
  injection Hi as <-. exact Hin.
Defined.

Lemma source_kept_by_local_targets_witness :
  let instructions :=
    Many [Example.path_instruction "a" "x";
          Example.path_instruction "a.b" "y"] in
  let st := State Example.alias_heap [] in
  let st' := State (Example.alias_heap
                      ++ [OObject (<["y" := VNum 1]> {["x" := VRef 1]})]) [] in
  every_to_of single_key instructions = true
  /\ Example.transformData 1 (VRef 0) instructions (Options false) st
     = Ret (VRef 2) st'
  /\ st_heap st `prefix_of` st_heap st'.
Proof.
  intros instructions st st'.
  assert (Hok : every_to_of single_key instructions = true) by reflexivity.
  assert (Hrun : Example.transformData 1 (VRef 0) instructions (Options false)
                   st = Ret (VRef 2) st')
    by (vm_compute; reflexivity).
  split; [exact Hok|]. split; [exact Hrun|].
  exact (proj1 (source_kept_by_local_targets Accessor.extractDeepProperty
                  Accessor.setDeepProperty Example.callFunction single_key
                  accessor_set_local example_call_pure 1 (VRef 0)
                  instructions (Options false) st Hok st'
                  (or_introl (ex_intro _ (VRef 2) Hrun)))).
Defined.

Lemma later_subpath_error_wins_witness :
  let st := State [OObject ∅; OObject ∅] [] in
  let e := DeepPropertyError "Path contains an illegal segment" in
  let paths := [Some (PDot "zz"); Some (PSegs [SegNull])] in
  Forall2 (fun q x =>
             extractProperty Accessor.extractDeepProperty (VRef 0) q st
             = Ret x st) [Some (PDot "zz")] [(false, VUndefined)]
  /\ extractProperty Accessor.extractDeepProperty (VRef 0)
       (Some (PSegs [SegNull])) st = Throw e st
  /\ extractCombinedProperties Accessor.extractDeepProperty
       Example.callFunction (VRef 0) paths VUndefined st = Throw e st.
Proof.
  intros st e paths.
  assert (Hpre : Forall2 (fun q x =>
                            extractProperty Accessor.extractDeepProperty
                                            (VRef 0) q st = Ret x st)
                         [Some (PDot "zz")] [(false, VUndefined)])
    by (repeat constructor).
  assert (Hp : extractProperty Accessor.extractDeepProperty (VRef 0)
                 (Some (PSegs [SegNull])) st = Throw e st) by reflexivity.
  split; [exact Hpre|]. split; [exact Hp|].
  exact (proj1 (later_subpath_error_wins Accessor.extractDeepProperty
                  Accessor.setDeepProperty Example.callFunction
                  (fun _ _ => ret VUndefined) (Options false) (VRef 0)
                  (VRef 1) Example.missing_one_instruction
                  [Some (PDot "zz")] (Some (PSegs [SegNull])) [] VUndefined
                  [(false, VUndefined)] st e ToNull Hpre Hp)).
Defined.

Lemma merge_of_missing_needs_object_default_witness :
  let i := Instruction (Some (FromPath (PDot "prop"))) (Some ToNull)
             None VUndefined VUndefined in
  let st := State [OObject ∅; OObject ∅] [] in
  transform_ok i = true
  /\ extractSource Accessor.extractDeepProperty Example.callFunction
       (VRef 0) i (FromPath (PDot "prop")) st = Ret (false, VUndefined) st
  /\ isObject (i_default i) = false
  /\ processInstruction Accessor.extractDeepProperty Accessor.setDeepProperty
       Example.callFunction (fun _ _ => ret VUndefined) (Options false)
       (VRef 0) (VRef 1) i st
     = Throw (DataTransformError "Cannot assign properties from a non-object"
                (Some i)) st.
Proof.
  intros i st.
  assert (Hok : transform_ok i = true) by reflexivity.
  assert (Hex : extractSource Accessor.extractDeepProperty
                  Example.callFunction (VRef 0) i (FromPath (PDot "prop")) st
                = Ret (false, VUndefined) st) by reflexivity.
  assert (Hd : isObject (i_default i) = false) by reflexivity.
  split; [exact Hok|]. split; [exact Hex|]. split; [exact Hd|].
  rewrite (proj1 (merge_of_missing_needs_object_default
                    Accessor.extractDeepProperty Accessor.setDeepProperty
                    Example.callFunction (fun _ _ => ret VUndefined)
                    (Options false) (VRef 0) (VRef 1) i
                    (FromPath (PDot "prop")) VUndefined st st
                    Hok eq_refl eq_refl Hex) Hd).
  reflexivity.
Defined.

Lemma flat_call_does_not_recurse_witness :
  let st := State Example.alias_heap [] in
  array_elements (st_heap st) (VRef 0) = None
  /\ flat Example.alias_instructions
  /\ Example.transformData 7 (VRef 0) Example.alias_instructions
       (Options false) st
     = Example.transformData 1 (VRef 0) Example.alias_instructions
         (Options false) st.
Proof.
  intros st.
  assert (Ha : array_elements (st_heap st) (VRef 0) = None) by reflexivity.
  assert (Hflat : flat Example.alias_instructions) by (repeat constructor).
  split; [exact Ha|]. split; [exact Hflat|].
  exact (proj2 (flat_call_does_not_recurse Accessor.extractDeepProperty
                  Accessor.setDeepProperty Example.callFunction 6 (VRef 0)
                  Example.alias_instructions (Options false) st Ha Hflat)).
Defined.

Lemma stringifyPath_replaces_dots_witness :
  dotless "firstName"
  /\ stringifyPath_path (PDot "firstName") = "firstName".
Proof.
  assert (H : dotless "firstName").
  { intros c Hc. simpl in Hc.
    repeat (destruct Hc as [<-|Hc]; [discriminate|]). destruct Hc. }
  split; [exact H|].
  exact (proj1 (proj2 stringifyPath_replaces_dots) "firstName" H).
Defined.

Lemma later_merge_wins_witness :
  let st := State [OObject ∅;
                   OObject {["k" := VNum 1; "a" := VNum 1]};
                   OObject {["k" := VNum 2]}] [] in
  0 <> 2
  /\ (writeResult Accessor.setDeepProperty (VRef 0)
        Example.merge_array_instruction ToNull (VRef 1) ;;;
      writeResult Accessor.setDeepProperty (VRef 0)
        Example.merge_array_instruction ToNull (VRef 2)) st
     = Ret tt (State [OObject {["k" := VNum 2; "a" := VNum 1]};
                      OObject {["k" := VNum 1; "a" := VNum 1]};
                      OObject {["k" := VNum 2]}] []).
Proof.
  intros st.
  assert (Hne : 0 <> 2) by discriminate.
  split; [exact Hne|].
  rewrite (proj1 (later_merge_wins Accessor.setDeepProperty 0 1 2 ∅
                    (OObject {["k" := VNum 1; "a" := VNum 1]})
                    (OObject {["k" := VNum 2]})
                    Example.merge_array_instruction
                    Example.merge_array_instruction st
                    Hne eq_refl eq_refl eq_refl)).
  vm_compute. reflexivity.
Defined.
